(** * plainmerge: the PDF mail-merge engine of [src/render.ts]

    A shallow embedding of the render module: the spreadsheet row reader
    ([sheetToArray], [readFirstSheet]), the form populator ([renderForm], in
    the two versions present in the source), the overlay drawing step
    ([getFont], [renderPage]) and the document assembler ([renderPdf]).

    Conventions of the embedding.
    - JavaScript numbers that carry geometry are exact rationals ([Qc]).
      [textGeometry] is the computation without the rounding of IEEE
      doubles; [textGeometry_rounded] is the same computation with a
      rounding function applied after every operation. Overflow to an
      infinity and NaN are not modelled.
    - Objects used as dictionaries ([RowMap], [FontMap], the cells of a
      sheet, the fields of a form) are [gmap]s of their own keys. A read
      [obj[key]] of a plain object also finds the members inherited from
      [Object.prototype]: the field lookup of the earlier populator, whose
      outcome such a member changes, is the read [js_get]; the current
      populator treats such a member like an absent field, as the own-key
      lookup does. Font names are taken not to be member names of
      [Object.prototype], and forms to have no field named [__proto__];
      the statements that depend on it say so.
      [FormMap] is the list of its entries in [Object.keys] order.
    - pdf-lib and SheetJS are external to the repository: what the source
      only calls (font metrics, multi-line layout, cell addressing, the
      workbook reader, the file system, the size of a default page) is
      collected in the class [Env].
    - A thrown exception is the outcome [Throw]; the statements of
      [renderPdf] run in a small state-and-error monad over [World], the
      files written so far and the supply of document identities. *)

From Stdlib Require Import QArith Qcanon Qround.
From stdpp Require Import base option numbers list gmap strings pretty.

(** ** JavaScript values *)

Inductive JsValue :=
| JUndefined
| JNull
| JBool (b : bool)
| JNumber (n : Qc)
| JString (s : string).

#[global] Instance JsValue_eq_dec : EqDecision JsValue.
Proof. solve_decision. Defined.

Definition num (z : Z) : Qc := Q2Qc (inject_Z z).

(** [v || d] for an optional number: [undefined] and [0] are falsy. *)
Definition num_or (v : option Qc) (d : Qc) : Qc :=
  match v with
  | Some q => if decide (q = 0%Qc) then d else q
  | None => d
  end.

(** [s || d] for an optional string: [undefined] and [''] are falsy. *)
Definition str_or (v : option string) (d : string) : string :=
  match v with
  | Some s => if decide (s = "") then d else s
  | None => d
  end.

(** ** Outcomes *)

Inductive Error :=
| TypeError (what : string)
| IOError (path : string)
| PageOutOfRange (index : nat)
| FontNotEmbeddable (name : string)
| NoSuchFieldError (name : string)
| UnexpectedFieldTypeError (name : string)
| InvalidOption (value : string).

Inductive Outcome (A : Type) :=
| Ok (a : A)
| Throw (e : Error).
Arguments Ok {A} a.
Arguments Throw {A} e.

Definition obind {A B} (m : Outcome A) (k : A → Outcome B) : Outcome B :=
  match m with
  | Ok a => k a
  | Throw e => Throw e
  end.

#[global] Instance Outcome_ret : MRet Outcome := λ A a, Ok a.
#[global] Instance Outcome_bind : MBind Outcome := λ A B k m, obind m k.

(** [forEach] and [for] loops whose body may throw. *)
Fixpoint foldM {A B} (f : A → B → Outcome A) (a : A) (l : list B) : Outcome A :=
  match l with
  | [] => Ok a
  | b :: rest => a' ← f a b; foldM f a' rest
  end.

(** ** Spreadsheet data (SheetJS) *)

Module XLSX.
Record CellAddress := { r : nat; c : nat }.
Record Range := { s : CellAddress; e : CellAddress }.
Record CellObject := { v : JsValue }.

(** A worksheet: the ['!ref'] entry and the sparse cells keyed by
    address. *)
Record WorkSheet := {
  ref : option string;
  cells : gmap string CellObject;
}.

Record WorkBook := {
  SheetNames : list string;
  Sheets : gmap string WorkSheet;
}.
End XLSX.

Abbreviation RowMap := (gmap Z JsValue) (only parsing).
Abbreviation FormMap := (list (string * Z)) (only parsing).

(** ** PDF data (pdf-lib) *)

Inductive TextAlignment := Left | Center | Right.

Record Bounds := {
  b_x : Qc;
  b_y : Qc;
  b_width : Qc;
  b_height : Qc;
}.

(** One line of a multi-line layout. *)
Record Line := { l_text : string; l_x : Qc; l_y : Qc }.

(** An embedded font: the document instance it was embedded into, and its
    name. *)
Record PDFFont := { font_doc : nat; font_name : string }.

#[global] Instance PDFFont_eq_dec : EqDecision PDFFont.
Proof. solve_decision. Defined.

Record Color := { red : Qc; green : Qc; blue : Qc }.

(** The arguments of one [page.drawText] call. *)
Record DrawOp := {
  d_text : string;
  d_x : Qc;
  d_y : Qc;
  d_lineHeight : option Qc;
  d_size : Qc;
  d_font : PDFFont;
  d_maxWidth : Qc;
  d_color : Color;
}.

Inductive PDFField :=
| PDFTextField (text : option string)
| PDFCheckBox (checked : bool)
| PDFRadioGroup (options : list string) (selected : option string)
| PDFOptionList (options : list string) (selected : list string)
| PDFDropdown (options : list string) (selected : list string)
| PDFButton
| PDFSignature.

#[global] Instance PDFField_eq_dec : EqDecision PDFField.
Proof. solve_decision. Defined.

(** The fields of a form by (fully qualified, hence unique) name. *)
Abbreviation PDFForm := (gmap string PDFField) (only parsing).

(** A page: its size, the [drawText] calls made on it, and the field values
    that stay visible on it once it has been copied out of a saved document
    (empty for the pages of a parsed document, whose fields are in the
    form). *)
Record PDFPage := {
  pg_width : Qc;
  pg_height : Qc;
  pg_draws : list DrawOp;
  pg_values : PDFForm;
}.

(** A serialized document. *)
Record PdfBytes := {
  bytes_pages : list PDFPage;
  bytes_form : PDFForm;
}.

(** A document instance; [doc_id] is its identity. *)
Record PDFDocument := {
  doc_id : nat;
  doc_pages : list PDFPage;
  doc_form : PDFForm;
  doc_fonts : list PDFFont;
}.

Abbreviation FontMap := (gmap string PDFFont) (only parsing).

(** ** The overlay description (fabric) *)

Record CanvasObject := {
  type : string;
  left : option Qc;
  top : option Qc;
  width : option Qc;
  height : option Qc;
  fontSize : option Qc;
  fontFamily : option string;
  fill : option string;
  textAlign : option string;
  lineHeight : option Qc;
  index : Z;
}.

Record CanvasObjects := { objects : list CanvasObject }.

(** ** The environment: library calls and the file system *)

Class Env := {
  (** [Number.prototype.toString] *)
  numberToString : Qc → string;
  (** [XLSX.utils.encode_cell] and [XLSX.utils.decode_range] *)
  encode_cell : XLSX.CellAddress → string;
  decode_range : string → XLSX.Range;
  (** [XLSX.readFile path { sheetRows }] *)
  XLSX_readFile : string → nat → Outcome XLSX.WorkBook;
  (** [fs.readFile] followed by parsing, for a template *)
  readFile : string → Outcome PdfBytes;
  (** the fonts [embedFont] accepts by name *)
  isStandardFont : string → bool;
  (** the metrics behind [font.heightAtSize size { descender }] *)
  fontHeight : string → Qc → bool → Qc;
  (** the line breaking behind [layoutMultilineText] *)
  layoutLines : string → string → Qc → Bounds → TextAlignment → list Line;
  (** the paths [fs.writeFile] can write to; it rejects on the others *)
  writable : string → bool;
  (** width and height of the page [addPage()] creates without arguments *)
  defaultPageSize : Qc * Qc;
}.

(** ** Strings *)

(** [s.split(sep)] for a one-character separator. *)
Fixpoint split (sep : Ascii.ascii) (s : string) : list string :=
  match s with
  | EmptyString => [EmptyString]
  | String ch rest =>
      if Ascii.eqb ch sep then EmptyString :: split sep rest
      else match split sep rest with
           | w :: ws => String ch w :: ws
           | [] => [String ch EmptyString]
           end
  end.

(** [l.join(sep)] *)
Fixpoint join (sep : string) (l : list string) : string :=
  match l with
  | [] => ""
  | [w] => w
  | w :: ws => w +:+ sep +:+ join sep ws
  end.

(** [s.toLowerCase()], on the letters A to Z. *)
Definition lower_ascii (ch : Ascii.ascii) : Ascii.ascii :=
  let n := Ascii.N_of_ascii ch in
  if ((65 <=? n) && (n <=? 90))%N then Ascii.ascii_of_N (n + 32) else ch.

Fixpoint toLowerCase (s : string) : string :=
  match s with
  | EmptyString => EmptyString
  | String ch rest => String (lower_ascii ch) (toLowerCase rest)
  end.

(** The value of one hexadecimal digit, as the class [[a-f\d]] with flag
    [i] accepts it. *)
Definition hexDigit (ch : Ascii.ascii) : option Z :=
  let n := Z.of_N (Ascii.N_of_ascii ch) in
  if ((48 <=? n) && (n <=? 57))%Z then Some (n - 48)%Z
  else if ((97 <=? n) && (n <=? 102))%Z then Some (n - 87)%Z
  else if ((65 <=? n) && (n <=? 70))%Z then Some (n - 55)%Z
  else None.

(** [parseInt(h, 16)] of a two-digit group. *)
Definition hexPair (a b : Ascii.ascii) : option Z :=
  hi ← hexDigit a; lo ← hexDigit b; Some (16 * hi + lo)%Z.

Definition hash : Ascii.ascii := Ascii.ascii_of_N 35.
Definition dot : Ascii.ascii := Ascii.ascii_of_N 46.

Definition hexToRgb (hex : string) : Z * Z * Z :=
  let body :=
    match hex with
    | String ch rest => if Ascii.eqb ch hash then rest else hex
    | EmptyString => hex
    end in
  match body with
  | String r1 (String r2 (String g1 (String g2 (String b1 (String b2 EmptyString))))) =>
      match hexPair r1 r2, hexPair g1 g2, hexPair b1 b2 with
      | Some r, Some g, Some b => (r, g, b)
      | _, _, _ => (0, 0, 0)%Z
      end
  | _ => (0, 0, 0)%Z
  end.

(** [rgb(r / 255, g / 255, b / 255)] *)
Definition rgb255 (code : Z * Z * Z) : Color :=
  let '(r, g, b) := code in
  {| red := (num r / num 255)%Qc;
     green := (num g / num 255)%Qc;
     blue := (num b / num 255)%Qc |}.

(** ** Plain objects *)

(** The member names of [Object.prototype]: a read [obj[key]] of a plain
    object [{}] without own key [key] finds a function for these ([Object]'s
    prototype itself for [__proto__]) and [undefined] for every other
    key. *)
Definition Object_prototype : list string :=
  ["constructor"; "__defineGetter__"; "__defineSetter__"; "hasOwnProperty";
   "__lookupGetter__"; "__lookupSetter__"; "isPrototypeOf";
   "propertyIsEnumerable"; "toString"; "valueOf"; "__proto__";
   "toLocaleString"].

Definition inherited (key : string) : bool :=
  bool_decide (key ∈ Object_prototype).

(** What [obj[key]] finds in a plain object with own entries [obj]. *)
Inductive JsProp (A : Type) :=
| Own (a : A)
| Inherited
| Undefined.
Arguments Own {A} a.
Arguments Inherited {A}.
Arguments Undefined {A}.

Definition js_get {A} (obj : gmap string A) (key : string) : JsProp A :=
  match obj !! key with
  | Some a => Own a
  | None => if inherited key then Inherited else Undefined
  end.

(** ** The world of a merge run *)

(** The [writeFile] calls made so far, in order, and the identity the next
    document instance gets. *)
Record World := {
  files : list (string * PdfBytes);
  next_doc : nat;
}.

(** A statement that may throw and may change the world; what was written
    before a throw stays written. *)
Definition M (A : Type) : Type := World → Outcome A * World.

#[global] Instance M_ret : MRet M := λ A a w, (Ok a, w).
#[global] Instance M_bind : MBind M := λ A B k m w,
  match m w with
  | (Ok a, w') => k a w'
  | (Throw e, w') => (Throw e, w')
  end.

Definition lift {A} (o : Outcome A) : M A := λ w, (o, w).

Section Model.
Context `{Env}.

(** [String(v)] and the template literal [`${v}`]. *)
Definition toString (v : JsValue) : string :=
  match v with
  | JUndefined => "undefined"
  | JNull => "null"
  | JBool true => "true"
  | JBool false => "false"
  | JNumber n => numberToString n
  | JString s => s
  end.

(** [row[index]]: a missing key reads as [undefined]. *)
Definition row_get (row : RowMap) (index : Z) : JsValue :=
  default JUndefined (row !! index).

(** *** Tabular row reader *)

Definition sheetToArray (sheet : XLSX.WorkSheet) : list (list JsValue) :=
  match XLSX.ref sheet with
  | Some ref =>
      if decide (ref = "") then []
      else
        let range := decode_range ref in
        let sr := XLSX.r (XLSX.s range) in
        let er := XLSX.r (XLSX.e range) in
        let sc := XLSX.c (XLSX.s range) in
        let ec := XLSX.c (XLSX.e range) in
        (λ rowNum,
           (λ colNum,
              match XLSX.cells sheet !! encode_cell {| XLSX.r := rowNum; XLSX.c := colNum |} with
              | None => JString ""
              | Some nextCell => XLSX.v nextCell
              end) <$> seq sc (ec + 1 - sc)) <$> seq sr (er + 1 - sr)
  | None => []
  end.

(** [arr.forEach((r, i) => { row[i] = r; })] starting from [{}]. *)
Definition toRowMap (arr : list JsValue) : RowMap :=
  foldl (λ row ir, <[Z.of_nat ir.1 := ir.2]> row) ∅ (imap pair arr).

Definition headerOffset : nat := 1.

Definition readFirstSheet (path : string) (rowsLimit : nat)
    : Outcome (list RowMap) :=
  let sheetRows := rowsLimit + headerOffset in
  workbook ← XLSX_readFile path sheetRows;
  let sheetsList := XLSX.SheetNames workbook in
  match sheetsList !! 0%nat ≫= (λ name, XLSX.Sheets workbook !! name) with
  | None => Throw (TypeError "sheet is undefined")
  | Some firstSheet =>
      Ok (toRowMap <$> drop headerOffset (sheetToArray firstSheet))
  end.

(** *** Form fields (pdf-lib)

    [getTextField] and its siblings throw when the name is unknown or
    the field is of another class; the setters below are those accessors
    followed by the method the populator calls on the result. The calls
    made on the form are logged in order. *)

Inductive FieldCall :=
| setText (key value : string)
| check (key : string)
| uncheck (key : string)
| selectRadioGroup (key value : string)
| selectOptionList (key value : string)
| selectDropdown (key value : string).

Definition getField (pdfForm : PDFForm) (key : string) : Outcome PDFField :=
  match pdfForm !! key with
  | Some f => Ok f
  | None => Throw (NoSuchFieldError key)
  end.

Definition getTextField (pdfForm : PDFForm) (key : string) : Outcome (option string) :=
  f ← getField pdfForm key;
  match f with
  | PDFTextField t => Ok t
  | _ => Throw (UnexpectedFieldTypeError key)
  end.

Definition getCheckBox (pdfForm : PDFForm) (key : string) : Outcome bool :=
  f ← getField pdfForm key;
  match f with
  | PDFCheckBox b => Ok b
  | _ => Throw (UnexpectedFieldTypeError key)
  end.

Definition getRadioGroup (pdfForm : PDFForm) (key : string)
    : Outcome (list string * option string) :=
  f ← getField pdfForm key;
  match f with
  | PDFRadioGroup opts sel => Ok (opts, sel)
  | _ => Throw (UnexpectedFieldTypeError key)
  end.

Definition getOptionList (pdfForm : PDFForm) (key : string)
    : Outcome (list string * list string) :=
  f ← getField pdfForm key;
  match f with
  | PDFOptionList opts sel => Ok (opts, sel)
  | _ => Throw (UnexpectedFieldTypeError key)
  end.

Definition getDropdown (pdfForm : PDFForm) (key : string)
    : Outcome (list string * list string) :=
  f ← getField pdfForm key;
  match f with
  | PDFDropdown opts sel => Ok (opts, sel)
  | _ => Throw (UnexpectedFieldTypeError key)
  end.

(** [arr.includes(value)] *)
Definition includes (arr : list string) (value : string) : bool :=
  bool_decide (value ∈ arr).

(** The form being populated, with the log of the calls made on it. *)
Record FormState := { fields : PDFForm; calls : list FieldCall }.

Definition logged (st : FormState) (fields' : PDFForm) (call : FieldCall) : FormState :=
  {| fields := fields'; calls := calls st ++ [call] |}.

(** [getTextField(key).setText(value)]: the empty string removes the
    value of the field. *)
Definition do_setText (st : FormState) (key value : string) : Outcome FormState :=
  _ ← getTextField (fields st) key;
  let text := if decide (value = "") then None else Some value in
  Ok (logged st (<[key := PDFTextField text]> (fields st)) (setText key value)).

Definition do_check (st : FormState) (key : string) : Outcome FormState :=
  _ ← getCheckBox (fields st) key;
  Ok (logged st (<[key := PDFCheckBox true]> (fields st)) (check key)).

Definition do_uncheck (st : FormState) (key : string) : Outcome FormState :=
  _ ← getCheckBox (fields st) key;
  Ok (logged st (<[key := PDFCheckBox false]> (fields st)) (uncheck key)).

(** [getRadioGroup(key).select(value)] asserts that the value is one of
    the options. *)
Definition do_selectRadioGroup (st : FormState) (key value : string) : Outcome FormState :=
  '(opts, _) ← getRadioGroup (fields st) key;
  if includes opts value
  then Ok (logged st (<[key := PDFRadioGroup opts (Some value)]> (fields st))
             (selectRadioGroup key value))
  else Throw (InvalidOption value).

Definition do_selectOptionList (st : FormState) (key value : string) : Outcome FormState :=
  '(opts, _) ← getOptionList (fields st) key;
  if includes opts value
  then Ok (logged st (<[key := PDFOptionList opts [value]]> (fields st))
             (selectOptionList key value))
  else Throw (InvalidOption value).

Definition do_selectDropdown (st : FormState) (key value : string) : Outcome FormState :=
  '(opts, _) ← getDropdown (fields st) key;
  Ok (logged st (<[key := PDFDropdown opts [value]]> (fields st))
        (selectDropdown key value)).

(** *** Form field populator, current version *)

Inductive SupportedField :=
| Unsupported
| TextField
| CheckBox
| RadioGroup
| OptionList
| Dropdown.

(** [fld] is [fieldMap[key]], possibly [undefined]. *)
Definition getFieldType (fld : option PDFField) : SupportedField :=
  match fld with
  | Some (PDFTextField _) => TextField
  | Some (PDFCheckBox _) => CheckBox
  | Some (PDFRadioGroup _ _) => RadioGroup
  | Some (PDFOptionList _ _) => OptionList
  | Some (PDFDropdown _ _) => Dropdown
  | _ => Unsupported
  end.

(** [value && value.toLowerCase() === 'true'] *)
Definition isTrue (value : string) : bool :=
  if decide (value = "") then false
  else bool_decide (toLowerCase value = "true").

(** The part of the populator after the coercion of the value, shared by
    the cases of the [switch]. *)
Definition checkBoxCase (st : FormState) (key value : string) : Outcome FormState :=
  if isTrue value then do_check st key else do_uncheck st key.

Definition radioGroupCase (st : FormState) (key value : string) : Outcome FormState :=
  '(opts, _) ← getRadioGroup (fields st) key;
  if includes opts value then do_selectRadioGroup st key value else Ok st.

Definition optionListCase (st : FormState) (key value : string) : Outcome FormState :=
  '(opts, _) ← getOptionList (fields st) key;
  if includes opts value then do_selectOptionList st key value else Ok st.

Definition dropdownCase (st : FormState) (key value : string) : Outcome FormState :=
  '(opts, _) ← getDropdown (fields st) key;
  if includes opts value then do_selectDropdown st key value else Ok st.

(** The body of [Object.keys(formData).forEach((key) => ...)]. *)
Definition populateField (row : RowMap) (st : FormState) (entry : string * Z)
    : Outcome FormState :=
  let key := entry.1 in
  let index := entry.2 in
  let value := row_get row index in
  if decide (index = (-1)%Z ∨ value = JUndefined ∨ value = JNull) then Ok st
  else
    let field := fields st !! key in
    let value := toString value in
    match getFieldType field with
    | TextField => do_setText st key value
    | CheckBox => checkBoxCase st key value
    | RadioGroup => radioGroupCase st key value
    | OptionList => optionListCase st key value
    | Dropdown => dropdownCase st key value
    | Unsupported => Ok st
    end.

(** [renderForm(row, formData, pdfForm)]: the form after the call and the
    calls made on it; an absent form stays absent. *)
Definition renderForm (row : RowMap) (formData : option FormMap)
    (pdfForm : option PDFForm) : Outcome (option FormState) :=
  match pdfForm, formData with
  | Some form, Some formData =>
      st ← foldM (populateField row) {| fields := form; calls := [] |} formData;
      Ok (Some st)
  | Some form, None => Ok (Some {| fields := form; calls := [] |})
  | None, _ => Ok None
  end.

(** *** Form field populator, earlier version

    It dispatches on [field.constructor.name]; reading [constructor] of
    an [undefined] field throws. [fieldMap] is a plain object filled from
    the fields: for a name that is no field but a member of
    [Object.prototype] the read finds that member, whose constructor is
    none of the five classes. *)

Definition constructor_name (f : PDFField) : string :=
  match f with
  | PDFTextField _ => "PDFTextField"
  | PDFCheckBox _ => "PDFCheckBox"
  | PDFRadioGroup _ _ => "PDFRadioGroup"
  | PDFOptionList _ _ => "PDFOptionList"
  | PDFDropdown _ _ => "PDFDropdown"
  | PDFButton => "PDFButton"
  | PDFSignature => "PDFSignature"
  end.

Definition populateField_earlier (row : RowMap) (st : FormState) (entry : string * Z)
    : Outcome FormState :=
  let key := entry.1 in
  let index := entry.2 in
  if decide (index = (-1)%Z) then Ok st
  else
    let field := js_get (fields st) key in
    let value := toString (row_get row index) in
    match field with
    | Undefined => Throw (TypeError "Cannot read property constructor of undefined")
    | Inherited => Ok st
    | Own field =>
        let name := constructor_name field in
        if decide (name = "PDFTextField") then do_setText st key value
        else if decide (name = "PDFCheckBox") then checkBoxCase st key value
        else if decide (name = "PDFRadioGroup") then radioGroupCase st key value
        else if decide (name = "PDFOptionList") then optionListCase st key value
        else if decide (name = "PDFDropdown") then dropdownCase st key value
        else Ok st
    end.

Definition renderForm_earlier (row : RowMap) (formData : option FormMap)
    (pdfForm : option PDFForm) : Outcome (option FormState) :=
  match pdfForm, formData with
  | Some form, Some formData =>
      st ← foldM (populateField_earlier row) {| fields := form; calls := [] |} formData;
      Ok (Some st)
  | Some form, None => Ok (Some {| fields := form; calls := [] |})
  | None, _ => Ok None
  end.

(** *** Font cache *)

Definition Helvetica : string := "Helvetica".

(** [pdfDoc.embedFont(key)] without a registered fontkit: only the
    standard fonts can be embedded by name. *)
Definition embedFont (pdfDoc : PDFDocument) (key : string)
    : Outcome (PDFFont * PDFDocument) :=
  if isStandardFont key then
    let font := {| font_doc := doc_id pdfDoc; font_name := key |} in
    Ok (font, {| doc_id := doc_id pdfDoc;
                 doc_pages := doc_pages pdfDoc;
                 doc_form := doc_form pdfDoc;
                 doc_fonts := doc_fonts pdfDoc ++ [font] |})
  else Throw (FontNotEmbeddable key).

(** [cachedFonts[key]] is read among the own keys of the cache: font
    names are taken not to be member names of [Object.prototype]. *)
Definition getFont (font : option string) (pdfDoc : PDFDocument)
    (cachedFonts : FontMap) : Outcome (PDFFont * PDFDocument * FontMap) :=
  let key := str_or font Helvetica in
  match cachedFonts !! key with
  | Some cached => Ok (cached, pdfDoc, cachedFonts)
  | None =>
      '(embedded, pdfDoc) ← embedFont pdfDoc key;
      Ok (embedded, pdfDoc, <[key := embedded]> cachedFonts)
  end.

(** *** Coordinate translation and text drawing *)

Definition heightAtSize (font : PDFFont) (size : Qc) (descender : bool) : Qc :=
  fontHeight (font_name font) size descender.

Definition layoutMultilineText (text : string) (font : PDFFont) (fontSize : Qc)
    (bounds : Bounds) (alignment : TextAlignment) : list Line :=
  layoutLines text (font_name font) fontSize bounds alignment.

(** The PDF-space geometry of one text object: the constants [size],
    [x], [y] of the loop body and the bounds handed to the layout. *)
Record Geometry := {
  g_size : Qc;
  g_x : Qc;
  g_y : Qc;
  g_bounds : Bounds;
}.

Definition textGeometry (o : CanvasObject) (font : PDFFont)
    (pageWidth pageHeight canvasWidth : Qc) : Geometry :=
  let ratio := (pageWidth / canvasWidth)%Qc in
  let size := (num_or (fontSize o) (num 16) * ratio)%Qc in
  let offset := (heightAtSize font size true - heightAtSize font size false)%Qc in
  let x := (num_or (left o) (num 0) * ratio + num 1)%Qc in
  let y := (pageHeight - num_or (top o) (num 0) * ratio
            - num_or (height o) (num 0) * ratio + offset)%Qc in
  {| g_size := size;
     g_x := x;
     g_y := y;
     g_bounds := {| b_x := x;
                    b_y := y;
                    b_width := (num_or (width o) (num 100) * ratio)%Qc;
                    b_height := (num_or (height o) (num 100) * ratio)%Qc |} |}.

(** The same computation with the rounding of floating-point arithmetic
    made explicit: the exact result of every arithmetic operation of the
    loop body is rounded by [fl] to a representable number. *)
Definition textGeometry_rounded (fl : Qc → Qc) (o : CanvasObject) (font : PDFFont)
    (pageWidth pageHeight canvasWidth : Qc) : Geometry :=
  let ratio := fl (pageWidth / canvasWidth)%Qc in
  let size := fl (num_or (fontSize o) (num 16) * ratio)%Qc in
  let offset := fl (heightAtSize font size true - heightAtSize font size false)%Qc in
  let x := fl (fl (num_or (left o) (num 0) * ratio) + num 1)%Qc in
  let y := fl (fl (fl (pageHeight - fl (num_or (top o) (num 0) * ratio))
                   - fl (num_or (height o) (num 0) * ratio))
               + offset)%Qc in
  {| g_size := size;
     g_x := x;
     g_y := y;
     g_bounds := {| b_x := x;
                    b_y := y;
                    b_width := fl (num_or (width o) (num 100) * ratio)%Qc;
                    b_height := fl (num_or (height o) (num 100) * ratio)%Qc |} |}.

Definition textAlignment (o : CanvasObject) : TextAlignment :=
  if decide (textAlign o = Some "right") then Right
  else if decide (textAlign o = Some "center") then Center
  else Left.

(** [String(row[o.index])] followed by [text || '']. *)
Definition substitutedText (row : RowMap) (o : CanvasObject) : string :=
  let text := toString (row_get row (index o)) in
  str_or (Some text) "".

(** The [drawText] calls for one text object, once its font is known. *)
Definition drawTextObject (row : RowMap) (o : CanvasObject) (font : PDFFont)
    (pageWidth pageHeight canvasWidth : Qc) : list DrawOp :=
  let rgbCode := hexToRgb (default "undefined" (fill o)) in
  let color := rgb255 rgbCode in
  let g := textGeometry o font pageWidth pageHeight canvasWidth in
  let ratio := (pageWidth / canvasWidth)%Qc in
  let multiText :=
    layoutMultilineText (substitutedText row o) font (g_size g) (g_bounds g)
      (textAlignment o) in
  (λ p, {| d_text := l_text p;
           d_x := l_x p;
           d_y := l_y p;
           d_lineHeight := lineHeight o;
           d_size := g_size g;
           d_font := font;
           d_maxWidth := (num_or (width o) (num 100) * ratio)%Qc;
           d_color := color |}) <$> multiText.

Definition drawText (page : PDFPage) (ops : list DrawOp) : PDFPage :=
  {| pg_width := pg_width page;
     pg_height := pg_height page;
     pg_draws := pg_draws page ++ ops;
     pg_values := pg_values page |}.

(** What one pass of the overlay loop reads and updates: the page drawn
    on, the document owning it and the font cache. *)
Record Canvas := {
  cv_page : PDFPage;
  cv_doc : PDFDocument;
  cv_fonts : FontMap;
}.

(** The body of the loop over [canvasData.objects]. *)
Definition renderObject (row : RowMap) (canvasWidth : Qc) (cv : Canvas)
    (obj : CanvasObject) : Outcome Canvas :=
  if decide (type obj = "text") then
    '(font, pdfDoc, cachedFonts) ← getFont (fontFamily obj) (cv_doc cv) (cv_fonts cv);
    let page := cv_page cv in
    Ok {| cv_page :=
            drawText page
              (drawTextObject row obj font (pg_width page) (pg_height page) canvasWidth);
          cv_doc := pdfDoc;
          cv_fonts := cachedFonts |}
  else Ok cv.

Definition renderPage (row : RowMap) (page : PDFPage) (pdfDoc : PDFDocument)
    (cachedFonts : FontMap) (canvasData : option CanvasObjects)
    (canvasWidth : option Qc) : Outcome Canvas :=
  let cv := {| cv_page := page; cv_doc := pdfDoc; cv_fonts := cachedFonts |} in
  match canvasData, canvasWidth with
  | Some canvasData, Some canvasWidth =>
      if decide (canvasWidth = 0%Qc) then Ok cv
      else foldM (renderObject row canvasWidth) cv (objects canvasData)
  | _, _ => Ok cv
  end.

(** *** Document assembler *)

(** [PDFDocument.load(bytes)]: a new instance each time. *)
Definition PDFDocument_load (bytes : PdfBytes) : M PDFDocument := λ w,
  (Ok {| doc_id := next_doc w;
         doc_pages := bytes_pages bytes;
         doc_form := bytes_form bytes;
         doc_fonts := [] |},
   {| files := files w; next_doc := S (next_doc w) |}).

Definition PDFDocument_create : M PDFDocument := λ w,
  (Ok {| doc_id := next_doc w; doc_pages := []; doc_form := ∅; doc_fonts := [] |},
   {| files := files w; next_doc := S (next_doc w) |}).

(** The page of default size [addPage()] creates. *)
Definition defaultPage : PDFPage :=
  {| pg_width := defaultPageSize.1; pg_height := defaultPageSize.2;
     pg_draws := []; pg_values := ∅ |}.

(** [doc.save()]: a document without pages is given a default page
    first. *)
Definition save (doc : PDFDocument) : PdfBytes :=
  {| bytes_pages := match doc_pages doc with
                    | [] => [defaultPage]
                    | pages => pages
                    end;
     bytes_form := doc_form doc |}.

Definition getPage (doc : PDFDocument) (pageIndex : nat) : Outcome PDFPage :=
  match doc_pages doc !! pageIndex with
  | Some page => Ok page
  | None => Throw (PageOutOfRange pageIndex)
  end.

(** [copyPages(src, [pageIndex])], destructured to its only element: the
    copy shows the values the fields of [src] had. *)
Definition copyPages (src : PDFDocument) (pageIndex : nat) : Outcome PDFPage :=
  page ← getPage src pageIndex;
  Ok {| pg_width := pg_width page;
        pg_height := pg_height page;
        pg_draws := pg_draws page;
        pg_values := doc_form src |}.

Definition addPage (doc : PDFDocument) (page : PDFPage) : PDFDocument :=
  {| doc_id := doc_id doc;
     doc_pages := doc_pages doc ++ [page];
     doc_form := doc_form doc;
     doc_fonts := doc_fonts doc |}.

(** [writeFile(name, bytes)]: the file is written, or the call rejects
    and nothing is written. *)
Definition writeFile (name : string) (bytes : PdfBytes) : M () := λ w,
  if writable name
  then (Ok (), {| files := files w ++ [(name, bytes)]; next_doc := next_doc w |})
  else (Throw (IOError name), w).

(** The name of the file of row [i] (0-based) in split mode; the row
    number [i + 1] is printed in decimal. *)
Definition outputName (output : string) (i : nat) : string :=
  let outputs := split dot output in
  let baseName := join "." (take (length outputs - 1) outputs) in
  let fileEx := default "undefined" (last outputs) in
  baseName +:+ "-" +:+ pretty (i + 1)%nat +:+ "." +:+ fileEx.

(** The variables the row loop of [renderPdf] reassigns. *)
Record LoopState := {
  ls_pdfDoc : PDFDocument;
  ls_newDoc : PDFDocument;
  ls_cachedFonts : FontMap;
}.

(** The working document after [renderForm] and [renderPage] have
    mutated its form, its target page and its font list. *)
Definition workingDocument (cv : Canvas) (form : PDFForm) (pageIndex : nat)
    : PDFDocument :=
  {| doc_id := doc_id (cv_doc cv);
     doc_pages := <[pageIndex := cv_page cv]> (doc_pages (cv_doc cv));
     doc_form := form;
     doc_fonts := doc_fonts (cv_doc cv) |}.

Section renderPdf.
Variables (output : string) (pdfBuff : PdfBytes) (pageIndex : nat)
  (combinePdf : bool) (canvasData : option CanvasObjects)
  (canvasWidth : option Qc) (formData : option FormMap).

(** The body of the loop over the rows, for row [i]. *)
Definition iteration (i : nat) (row : RowMap) (st : LoopState) : M LoopState :=
  populated ← lift (renderForm row formData (Some (doc_form (ls_pdfDoc st))));
  let form := from_option fields (doc_form (ls_pdfDoc st)) populated in
  page ← lift (getPage (ls_pdfDoc st) pageIndex);
  cv ← lift (renderPage row page (ls_pdfDoc st) (ls_cachedFonts st) canvasData canvasWidth);
  let pdfDoc_i := workingDocument cv form pageIndex in
  reloaded ← PDFDocument_load (save pdfDoc_i);
  newPage ← lift (copyPages reloaded pageIndex);
  let newDoc_i := addPage (ls_newDoc st) newPage in
  '(newDoc', cachedFonts') ←
    (if negb combinePdf then
       _ ← writeFile (outputName output i) (save newDoc_i);
       created ← PDFDocument_create;
       mret (created, (∅ : FontMap))
     else mret (newDoc_i, cv_fonts cv));
  pdfDoc' ← PDFDocument_load pdfBuff;
  mret {| ls_pdfDoc := pdfDoc'; ls_newDoc := newDoc'; ls_cachedFonts := cachedFonts' |}.

(** [for (let i = ...; i < rows.length; i += 1)], from row [i] on. *)
Fixpoint rowLoop (i : nat) (rows : list RowMap) (st : LoopState) : M LoopState :=
  match rows with
  | [] => mret st
  | row :: rest => st' ← iteration i row st; rowLoop (S i) rest st'
  end.
End renderPdf.

Definition renderPdf (output pdfFile : string) (pageIndex : nat)
    (excelFile : string) (rowsLimit : nat) (combinePdf : bool)
    (canvasData : option CanvasObjects) (canvasWidth : option Qc)
    (formData : option FormMap) : M nat :=
  pdfBuff ← lift (readFile pdfFile);
  pdfDoc ← PDFDocument_load pdfBuff;
  newDoc ← PDFDocument_create;
  let cachedFonts : FontMap := ∅ in
  rows ← lift (readFirstSheet excelFile rowsLimit);
  st ← rowLoop output pdfBuff pageIndex combinePdf canvasData canvasWidth formData
         0 rows {| ls_pdfDoc := pdfDoc; ls_newDoc := newDoc; ls_cachedFonts := cachedFonts |};
  if combinePdf then
    _ ← writeFile output (save (ls_newDoc st));
    mret 1%nat
  else mret (length rows).

(** *** Form field introspector *)

(** [form.getFields()], each field with its name; the order is the
    library's. *)
Definition getFields (pdfForm : PDFForm) : list (string * PDFField) :=
  map_to_list pdfForm.

(** A tag is truthy unless it is the empty string. *)
Definition isSupported (tag : SupportedField) : bool :=
  match tag with
  | Unsupported => false
  | _ => true
  end.

(** [loadForm(filename)], current version: name and tag of every field,
    without the fields whose tag is empty. *)
Definition loadForm (filename : string) : M (list (string * SupportedField)) :=
  pdfBuff ← lift (readFile filename);
  pdfDoc ← PDFDocument_load pdfBuff;
  let form := doc_form pdfDoc in
  mret (filter (λ v, Is_true (isSupported v.2))
          ((λ fld, (fld.1, getFieldType (Some fld.2))) <$> getFields form)).

(** The earlier version reports the class name of every field. *)
Definition loadForm_earlier (filename : string) : M (list (string * string)) :=
  pdfBuff ← lift (readFile filename);
  pdfDoc ← PDFDocument_load pdfBuff;
  let form := doc_form pdfDoc in
  mret ((λ fld, (fld.1, constructor_name fld.2)) <$> getFields form).

(** *** The editor's count of data rows

    [handleOpenExcel] of the editor component, after it has read the first
    row of the chosen workbook: with a ['!fullref'] entry the number of
    output pages becomes the height of that range, otherwise it stays. *)
Definition openedPages (fullref : option string) (pages : Z) : Z :=
  match fullref with
  | Some ref =>
      if decide (ref = "") then pages
      else
        let range := decode_range ref in
        (Z.of_nat (XLSX.r (XLSX.e range)) - Z.of_nat (XLSX.r (XLSX.s range)))%Z
  | None => pages
  end.

End Model.

(** ** The editor component: page navigation

    The state the component keeps with [useState], as far as the PDF
    viewer is concerned, its handlers, and the buttons it renders. *)

Module PdfEditor.

Record State := {
  pdfFile : string;
  numPages : Z;
  pageNumber : Z;
  loaded : bool;
  showCanvas : bool;
}.

Definition initial : State :=
  {| pdfFile := ""; numPages := 1; pageNumber := 1;
     loaded := false; showCanvas := false |}.

(** [handleOpenPdf], once the dialog has answered with [path]. *)
Definition handleOpenPdf (path : option string) (st : State) : State :=
  if decide (str_or path "" = "") then st
  else {| pdfFile := str_or path "";
          numPages := numPages st;
          pageNumber := pageNumber st;
          loaded := false;
          showCanvas := false |}.

Definition handleDocumentLoadSuccess (doc_numPages : Z) (st : State) : State :=
  {| pdfFile := pdfFile st;
     numPages := doc_numPages;
     pageNumber := 1;
     loaded := true;
     showCanvas := showCanvas st |}.

Definition handlePageLoadSuccess (st : State) : State :=
  {| pdfFile := pdfFile st;
     numPages := numPages st;
     pageNumber := pageNumber st;
     loaded := loaded st;
     showCanvas := true |}.

Definition setPageNumber (n : Z) (st : State) : State :=
  {| pdfFile := pdfFile st;
     numPages := numPages st;
     pageNumber := n;
     loaded := loaded st;
     showCanvas := showCanvas st |}.

(** The Back and Next buttons are rendered under these conditions. *)
Definition backShown (st : State) : bool :=
  loaded st && bool_decide (pageNumber st > 1)%Z.

Definition nextShown (st : State) : bool :=
  loaded st && bool_decide (pageNumber st < numPages st)%Z.

(** What can happen to the state: a handler runs, or a rendered button is
    clicked. A document that loads has at least one page. *)
Inductive step : State → State → Prop :=
| step_openPdf path st :
    step st (handleOpenPdf path st)
| step_documentLoaded n st :
    (1 ≤ n)%Z → step st (handleDocumentLoadSuccess n st)
| step_pageLoaded st :
    step st (handlePageLoadSuccess st)
| step_back st :
    backShown st = true → step st (setPageNumber (pageNumber st - 1) st)
| step_next st :
    nextShown st = true → step st (setPageNumber (pageNumber st + 1) st).

Inductive reachable : State → Prop :=
| reachable_initial : reachable initial
| reachable_step st st' : reachable st → step st st' → reachable st'.

End PdfEditor.

(** ** A concrete environment and sample inputs

    Used to run the model on explicit inputs. *)

Module Sample.

Definition numberToString (q : Qc) : string :=
  if decide (Qden q = 1%positive) then pretty (Qnum q)
  else pretty (Qnum q) +:+ "/" +:+ pretty (Zpos (Qden q)).

(** A1-style addresses for the columns A to Z. *)
Definition encode_cell (a : XLSX.CellAddress) : string :=
  String (Ascii.ascii_of_nat (65 + XLSX.c a)) (pretty (XLSX.r a + 1)%nat).

Definition range (sr sc er ec : nat) : XLSX.Range :=
  {| XLSX.s := {| XLSX.r := sr; XLSX.c := sc |};
     XLSX.e := {| XLSX.r := er; XLSX.c := ec |} |}.

Definition decode_range (ref : string) : XLSX.Range :=
  if decide (ref = "A1:B3") then range 0 0 2 1
  else if decide (ref = "A1:B2") then range 0 0 1 1
  else range 0 0 0 1.

Definition cell (value : JsValue) : XLSX.CellObject := {| XLSX.v := value |}.

(** A sheet with a header and two data rows; B2 is absent. *)
Definition sheet (sheetRows : nat) : XLSX.WorkSheet :=
  {| XLSX.ref :=
       Some (match sheetRows with
             | 1 => "A1:B1"
             | 2 => "A1:B2"
             | _ => "A1:B3"
             end);
     XLSX.cells :=
       {[ "A1" := cell (JString "Name"); "B1" := cell (JString "Age");
          "A2" := cell (JString "Alice");
          "A3" := cell (JString "Bob"); "B3" := cell (JNumber (num 42)) ]} |}.

Definition workbook (sheetRows : nat) : XLSX.WorkBook :=
  {| XLSX.SheetNames := ["Sheet1"];
     XLSX.Sheets := {[ "Sheet1" := sheet sheetRows ]} |}.

Definition XLSX_readFile (path : string) (sheetRows : nat) : Outcome XLSX.WorkBook :=
  if decide (path = "data.xlsx") then Ok (workbook sheetRows)
  else Throw (IOError path).

Definition form : PDFForm :=
  {[ "Name" := PDFTextField None;
     "Adult" := PDFCheckBox false;
     "Plan" := PDFDropdown ["basic"; "pro"] [] ]}.

Definition page : PDFPage :=
  {| pg_width := num 600; pg_height := num 800; pg_draws := []; pg_values := ∅ |}.

Definition template : PdfBytes :=
  {| bytes_pages := [page]; bytes_form := form |}.

Definition readFile (path : string) : Outcome PdfBytes :=
  if decide (path = "template.pdf") then Ok template else Throw (IOError path).

Definition isStandardFont (name : string) : bool :=
  bool_decide (name ∈ ["Courier"; "Helvetica"; "Times-Roman"]).

(** Ascender 718 and descender -207 per 1000 units. *)
Definition fontHeight (name : string) (size : Qc) (descender : bool) : Qc :=
  ((if descender then num 925 else num 718) / num 1000 * size)%Qc.

(** The whole text on one line at the corner of the bounds. *)
Definition layoutLines (text font : string) (fontSize : Qc) (bounds : Bounds)
    (alignment : TextAlignment) : list Line :=
  [ {| l_text := text; l_x := b_x bounds; l_y := b_y bounds |} ].

(** Files can be written where the directory exists: anywhere but under
    [nodir/]. *)
Definition writable (path : string) : bool :=
  negb (String.prefix "nodir/" path).

(** A4, in points. *)
Definition defaultPageSize : Qc * Qc :=
  ((num 59528 / num 100)%Qc, (num 84189 / num 100)%Qc).

Definition env : Env :=
  Build_Env numberToString encode_cell decode_range XLSX_readFile readFile
    isStandardFont fontHeight layoutLines writable defaultPageSize.
(** Sample overlay objects, rows and documents. *)
Definition label (column : Z) : CanvasObject :=
  {| type := "text";
     left := Some (num 10); top := Some (num 20);
     width := Some (num 100); height := Some (num 30);
     fontSize := Some (num 12); fontFamily := None;
     fill := Some "#ff0000"; textAlign := Some "center";
     lineHeight := None; index := column |}.

Definition zeroFontSize : CanvasObject :=
  {| type := "text";
     left := Some (num 10); top := Some (num 20);
     width := Some (num 100); height := Some (num 30);
     fontSize := Some (num 0); fontFamily := None;
     fill := Some "#ff0000"; textAlign := None;
     lineHeight := None; index := 0 |}.

Definition zeroWidth : CanvasObject :=
  {| type := "text";
     left := Some (num 10); top := Some (num 20);
     width := Some (num 0); height := Some (num 30);
     fontSize := Some (num 12); fontFamily := None;
     fill := Some "#ff0000"; textAlign := None;
     lineHeight := None; index := 0 |}.

Definition helvetica : PDFFont := {| font_doc := 0; font_name := "Helvetica" |}.

Definition alice : RowMap := {[ 0%Z := JString "Alice" ]}.

Definition bob : RowMap := {[ 0%Z := JString "Bob"; 1%Z := JString "pro" ]}.

(** The rows of the sample sheet. *)
Definition rows : list RowMap :=
  [ {[ 0%Z := JString "Alice"; 1%Z := JString "" ]};
    {[ 0%Z := JString "Bob"; 1%Z := JNumber (num 42) ]} ].

Definition document : PDFDocument :=
  {| doc_id := 0; doc_pages := [page]; doc_form := form; doc_fonts := [] |}.

Definition world : World := {| files := []; next_doc := 0 |}.
(** The loop state and the world when the row loop starts. *)
Definition start : LoopState :=
  {| ls_pdfDoc := document;
     ls_newDoc := {| doc_id := 1; doc_pages := []; doc_form := ∅; doc_fonts := [] |};
     ls_cachedFonts := ∅ |}.

Definition started : World := {| files := []; next_doc := 2 |}.

Definition overlay : CanvasObjects := {| objects := [label 0] |}.

Definition mapping : FormMap := [("Name", 0%Z); ("Plan", 1%Z); ("Adult", (-1)%Z)].

Definition lower : CanvasObject :=
  {| type := "text";
     left := Some (num 10); top := Some (num 50);
     width := Some (num 100); height := Some (num 30);
     fontSize := Some (num 12); fontFamily := None;
     fill := Some "#ff0000"; textAlign := Some "center";
     lineHeight := None; index := 0 |}.

(** A placeholder object, a label in a font that is not a standard font,
    and an overlay with a placeholder between two labels of one font. *)
Definition qrcode : CanvasObject :=
  {| type := "qrcode";
     left := Some (num 5); top := Some (num 5);
     width := Some (num 40); height := Some (num 40);
     fontSize := None; fontFamily := None;
     fill := None; textAlign := None;
     lineHeight := None; index := 0 |}.

Definition comic : CanvasObject :=
  {| type := "text";
     left := Some (num 10); top := Some (num 20);
     width := Some (num 100); height := Some (num 30);
     fontSize := Some (num 12); fontFamily := Some "Comic Sans";
     fill := Some "#ff0000"; textAlign := None;
     lineHeight := None; index := 0 |}.

Definition mixed : CanvasObjects := {| objects := [label 0; qrcode; label 1] |}.


End Sample.

(** ** Vocabulary of the statements *)

(** Whether a character occurs in a string. *)
Fixpoint occurs (ch : Ascii.ascii) (s : string) : bool :=
  match s with
  | EmptyString => false
  | String ch' rest => Ascii.eqb ch' ch || occurs ch rest
  end.

Section Vocabulary.
Context `{Env}.

(** The value [sheetToArray] puts at a cell position. *)
Definition cellValue (sheet : XLSX.WorkSheet) (rowNum colNum : nat) : JsValue :=
  match XLSX.cells sheet !! encode_cell {| XLSX.r := rowNum; XLSX.c := colNum |} with
  | None => JString ""
  | Some nextCell => XLSX.v nextCell
  end.

(** The option set of a RadioGroup, OptionList or Dropdown field. *)
Definition choiceOptions (f : PDFField) : option (list string) :=
  match f with
  | PDFRadioGroup opts _ | PDFOptionList opts _ | PDFDropdown opts _ => Some opts
  | _ => None
  end.

(** Such a field once [value] has been selected in it, and the call that
    selects it. *)
Definition selectedTo (f : PDFField) (value : string) : PDFField :=
  match f with
  | PDFRadioGroup opts _ => PDFRadioGroup opts (Some value)
  | PDFOptionList opts _ => PDFOptionList opts [value]
  | PDFDropdown opts _ => PDFDropdown opts [value]
  | _ => f
  end.

Definition selectCall (f : PDFField) (key value : string) : FieldCall :=
  match f with
  | PDFRadioGroup _ _ => selectRadioGroup key value
  | PDFOptionList _ _ => selectOptionList key value
  | _ => selectDropdown key value
  end.

(** The column index is not the sentinel and the row has a defined,
    non-null value there. *)
Definition mappedValue (row : RowMap) (index : Z) : Prop :=
  index ≠ (-1)%Z ∧ row_get row index ≠ JUndefined ∧ row_get row index ≠ JNull.

(** The precondition under which the two populators are compared: every
    mapped name is a field of one of the five supported kinds, and every
    index other than the sentinel has a defined, non-null value. *)
Definition mappingResolved (row : RowMap) (formData : FormMap) (form : PDFForm)
    : Prop :=
  Forall (λ entry : string * Z,
            getFieldType (form !! entry.1) ≠ Unsupported ∧
            (entry.2 ≠ (-1)%Z → mappedValue row entry.2))
         formData.

(** The authoring geometry of an object multiplied by [k]. *)
Definition scaleObject (k : Qc) (o : CanvasObject) : CanvasObject :=
  {| type := type o;
     left := Qcmult k <$> left o;
     top := Qcmult k <$> top o;
     width := Qcmult k <$> width o;
     height := Qcmult k <$> height o;
     fontSize := Qcmult k <$> fontSize o;
     fontFamily := fontFamily o;
     fill := fill o;
     textAlign := textAlign o;
     lineHeight := lineHeight o;
     index := index o |}.

(** A dimension that is present and not zero, so that [||] keeps it. *)
Definition given (dim : option Qc) : Prop :=
  ∃ q, dim = Some q ∧ q ≠ 0%Qc.

(** Every font in the cache is filed under its own name. *)
Definition cacheConsistent (cachedFonts : FontMap) : Prop :=
  ∀ key font, cachedFonts !! key = Some font → font_name font = key.

(** Every font in the cache is one [embedFont] accepts by name. *)
Definition cacheEmbeddable (cachedFonts : FontMap) : Prop :=
  ∀ key, is_Some (cachedFonts !! key) → isStandardFont key = true.

(** The font key of an object, as [getFont] computes it. *)
Definition fontKey (obj : CanvasObject) : string :=
  str_or (fontFamily obj) Helvetica.

(** Every font the overlay asks for can be embedded. *)
Definition fontsStandard (canvasData : option CanvasObjects) : Prop :=
  ∀ canvas obj,
    canvasData = Some canvas → obj ∈ objects canvas → type obj = "text" →
    isStandardFont (fontKey obj) = true.

(** A [drawText] call, and a page, without the identity of the document
    the fonts were embedded into. *)
Definition eraseOwner (d : DrawOp) : DrawOp :=
  {| d_text := d_text d;
     d_x := d_x d;
     d_y := d_y d;
     d_lineHeight := d_lineHeight d;
     d_size := d_size d;
     d_font := {| font_doc := 0; font_name := font_name (d_font d) |};
     d_maxWidth := d_maxWidth d;
     d_color := d_color d |}.

Definition anonymous (page : PDFPage) : PDFPage :=
  {| pg_width := pg_width page;
     pg_height := pg_height page;
     pg_draws := eraseOwner <$> pg_draws page;
     pg_values := pg_values page |}.

(** The [drawText] calls the overlay makes for a row on a page. *)
Definition overlayDraws (row : RowMap) (page : PDFPage)
    (canvasData : option CanvasObjects) (canvasWidth : option Qc) : list DrawOp :=
  match canvasData, canvasWidth with
  | Some canvas, Some w =>
      if decide (w = 0%Qc) then []
      else
        obj ← objects canvas;
        if decide (type obj = "text") then
          eraseOwner <$>
            drawTextObject row obj {| font_doc := 0; font_name := fontKey obj |}
              (pg_width page) (pg_height page) w
        else []
  | _, _ => []
  end.

(** The form of the template once populated from a row. *)
Definition populatedForm (row : RowMap) (formData : option FormMap)
    (form : PDFForm) : PDFForm :=
  match renderForm row formData (Some form) with
  | Ok (Some st) => fields st
  | _ => form
  end.

(** The output page of a row: the target page of the template with the
    row's overlay drawn on it, showing the row's field values. *)
Definition mergedPage (pdfBuff : PdfBytes) (target : PDFPage)
    (canvasData : option CanvasObjects) (canvasWidth : option Qc)
    (formData : option FormMap) (row : RowMap) : PDFPage :=
  {| pg_width := pg_width target;
     pg_height := pg_height target;
     pg_draws := (eraseOwner <$> pg_draws target)
                 ++ overlayDraws row target canvasData canvasWidth;
     pg_values := populatedForm row formData (bytes_form pdfBuff) |}.

(** A working document as parsed from the template bytes: nothing
    populated or drawn yet. *)
Definition freshCopy (pdfBuff : PdfBytes) (doc : PDFDocument) : Prop :=
  doc_pages doc = bytes_pages pdfBuff ∧ doc_form doc = bytes_form pdfBuff.

(** The file holding a single page. *)
Definition singlePage (page : PDFPage) : PdfBytes :=
  {| bytes_pages := [page]; bytes_form := ∅ |}.

(** The document instance [PDFDocument.load] makes of some bytes. *)
Definition parsed (bytes : PdfBytes) (id : nat) : PDFDocument :=
  {| doc_id := id;
     doc_pages := bytes_pages bytes;
     doc_form := bytes_form bytes;
     doc_fonts := [] |}.

(** The page [copyPages] takes out of the saved working document. *)
Definition copiedPage (cv : Canvas) (form : PDFForm) : PDFPage :=
  {| pg_width := pg_width (cv_page cv);
     pg_height := pg_height (cv_page cv);
     pg_draws := pg_draws (cv_page cv);
     pg_values := form |}.

(** Every font in the cache was embedded into a document instance created
    before identity [n] was handed out. *)
Definition cacheOwnedBefore (n : nat) (cachedFonts : FontMap) : Prop :=
  ∀ key font, cachedFonts !! key = Some font → (font_doc font < n)%nat.

(** The standing of the embedded fonts of a document with respect to a
    cache: no name is embedded twice, and every embedded font is the one
    the cache holds for its name. *)
Definition fontsFiled (pdfDoc : PDFDocument) (cachedFonts : FontMap) : Prop :=
  NoDup (font_name <$> doc_fonts pdfDoc) ∧
  ∀ font, font ∈ doc_fonts pdfDoc → cachedFonts !! font_name font = Some font.

(** What the populator makes of a field for a coerced value, by the
    kind of the field; a text field set to the empty string has no value. *)
Definition populatedField (f : PDFField) (value : string) : PDFField :=
  match f with
  | PDFTextField _ => PDFTextField (if decide (value = "") then None else Some value)
  | PDFCheckBox _ => PDFCheckBox (isTrue value)
  | PDFRadioGroup opts _ | PDFOptionList opts _ | PDFDropdown opts _ =>
      if includes opts value then selectedTo f value else f
  | _ => f
  end.

(** An entry of the mapping the current populator passes over: the
    sentinel index, no value in the row, or a name that is no field of a
    supported kind. *)
Definition skippedEntry (row : RowMap) (form : PDFForm) (entry : string * Z) : Prop :=
  entry.2 = (-1)%Z ∨ row_get row entry.2 = JUndefined ∨ row_get row entry.2 = JNull ∨
  getFieldType (form !! entry.1) = Unsupported.

(** The tag of a pdf-lib class name. *)
Definition classTag (name : string) : SupportedField :=
  if decide (name = "PDFTextField") then TextField
  else if decide (name = "PDFCheckBox") then CheckBox
  else if decide (name = "PDFRadioGroup") then RadioGroup
  else if decide (name = "PDFOptionList") then OptionList
  else if decide (name = "PDFDropdown") then Dropdown
  else Unsupported.

(** The report of the earlier introspector in the terms of the current
    one: class names become tags, fields without a tag are left out. *)
Definition translateInfos (infos : list (string * string))
    : list (string * SupportedField) :=
  filter (λ v, Is_true (isSupported v.2)) ((λ v, (v.1, classTag v.2)) <$> infos).

End Vocabulary.

(** * Properties *)

(** ** Splitting and joining *)

Lemma split_nonempty sep s : split sep s ≠ [].
Proof.
  destruct s as [|ch rest]; simpl; [done|].
  destruct (Ascii.eqb ch sep); [done|].
  by destruct (split sep rest).
Qed.

Lemma split_absent sep s : occurs sep s = false → split sep s = [s].
Proof.
  induction s as [|ch rest IH]; simpl; [done|].
  intros [Hch Hrest]%orb_false_iff.
  rewrite Hch, (IH Hrest). done.
Qed.

Lemma split_app sep a b :
  split sep (a +:+ String sep b) = split sep a ++ split sep b.
Proof.
  induction a as [|ch a IH]; simpl.
  - by rewrite Ascii.eqb_refl.
  - destruct (Ascii.eqb ch sep); [by rewrite IH|].
    rewrite IH.
    pose proof (split_nonempty sep a) as Hne.
    by destruct (split sep a).
Qed.

Lemma join_split sep s : join (String sep EmptyString) (split sep s) = s.
Proof.
  induction s as [|ch rest IH]; simpl; [done|].
  pose proof (split_nonempty sep rest) as Hne.
  destruct (Ascii.eqb ch sep) eqn:Hch.
  - apply Ascii.eqb_eq in Hch as ->.
    destruct (split sep rest) as [|w ws]; [done|].
    rewrite <- IH. reflexivity.
  - destruct (split sep rest) as [|w ws]; [done|].
    rewrite <- IH. by destruct ws.
Qed.

Lemma outputName_extension base ext i :
  occurs dot ext = false →
  outputName (base +:+ "." +:+ ext) i
  = base +:+ "-" +:+ pretty (i + 1)%nat +:+ "." +:+ ext.
Proof.
  intros Hext. unfold outputName.
  change ("." +:+ ext) with (String dot ext).
  rewrite split_app, (split_absent _ _ Hext).
  rewrite length_app, last_snoc. simpl length.
  replace (length (split dot base) + 1 - 1)%nat with (length (split dot base)) by lia.
  rewrite take_app_length.
  change "." with (String dot EmptyString) at 1.
  by rewrite join_split.
Qed.

(** ** Tabular row reader *)

Section Reader.
Context `{Env}.

Lemma toRowMap_snoc arr x :
  toRowMap (arr ++ [x]) = <[Z.of_nat (length arr) := x]> (toRowMap arr).
Proof.
  unfold toRowMap. rewrite imap_app, foldl_app. simpl.
  by rewrite Nat.add_0_r.
Qed.

Lemma toRowMap_lookup arr (i : nat) : toRowMap arr !! Z.of_nat i = arr !! i.
Proof.
  induction arr as [|x arr IH] using rev_ind; [done|].
  rewrite toRowMap_snoc.
  destruct (decide (i = length arr)) as [->|Hne].
  - rewrite lookup_insert_eq. by rewrite list_lookup_middle.
  - rewrite lookup_insert_ne by lia. rewrite IH.
    destruct (decide (i < length arr)%nat).
    + by rewrite lookup_app_l.
    + rewrite !lookup_ge_None_2; [done| |lia].
      rewrite length_app. simpl. lia.
Qed.

Lemma toRowMap_lookup_neg arr (z : Z) : (z < 0)%Z → toRowMap arr !! z = None.
Proof.
  intros Hz. induction arr as [|x arr IH] using rev_ind; [done|].
  rewrite toRowMap_snoc, lookup_insert_ne by lia. done.
Qed.

Lemma sheetToArray_ref sheet ref :
  XLSX.ref sheet = Some ref → ref ≠ "" →
  let range := decode_range ref in
  sheetToArray sheet
  = (λ rowNum,
       cellValue sheet rowNum
         <$> seq (XLSX.c (XLSX.s range))
               (XLSX.c (XLSX.e range) + 1 - XLSX.c (XLSX.s range)))
      <$> seq (XLSX.r (XLSX.s range))
            (XLSX.r (XLSX.e range) + 1 - XLSX.r (XLSX.s range)).
Proof.
  intros Href Hne. unfold sheetToArray. rewrite Href.
  by destruct (decide (ref = "")).
Qed.

Lemma sheetToArray_no_ref sheet :
  XLSX.ref sheet = None ∨ XLSX.ref sheet = Some "" → sheetToArray sheet = [].
Proof. unfold sheetToArray. by intros [-> | ->]. Qed.

End Reader.

(** C7. [readFirstSheet] asks the workbook reader for [rowsLimit + 1]
    physical rows of the first sheet. When the sheet has a declared range,
    it returns one Row per physical row of the range after the first (the
    header): Row [k] is physical row [s.r + 1 + k]; every column of the
    range has an entry in the Row, at its position counted from the first
    column of the range, holding the cell's value, or the empty string when
    the cell is absent. A sheet whose range spans at most [rowsLimit + 1]
    rows gives at most [rowsLimit] Rows. *)
Theorem readFirstSheet_rectangular `{Env} path rowsLimit workbook name sheet ref :
  XLSX_readFile path (rowsLimit + 1) = Ok workbook →
  XLSX.SheetNames workbook !! 0%nat = Some name →
  XLSX.Sheets workbook !! name = Some sheet →
  XLSX.ref sheet = Some ref → ref ≠ "" →
  let range := decode_range ref in
  let sr := XLSX.r (XLSX.s range) in
  let er := XLSX.r (XLSX.e range) in
  let sc := XLSX.c (XLSX.s range) in
  let ec := XLSX.c (XLSX.e range) in
  ∃ rows,
    readFirstSheet path rowsLimit = Ok rows ∧
    length rows = (er + 1 - sr - 1)%nat ∧
    ((er + 1 - sr ≤ rowsLimit + 1)%nat → (length rows ≤ rowsLimit)%nat) ∧
    ∀ k row, rows !! k = Some row →
      ∀ colNum, (sc ≤ colNum ≤ ec)%nat →
        row !! Z.of_nat (colNum - sc) = Some (cellValue sheet (sr + 1 + k) colNum).
Proof.
  intros Hread Hname Hsheet Href Hne range sr er sc ec.
  unfold readFirstSheet, headerOffset.
  rewrite Hread. simpl. rewrite Hname. simpl. rewrite Hsheet.
  eexists. split; [reflexivity|].
  rewrite (sheetToArray_ref _ _ Href Hne).
  fold range. fold sr er sc ec.
  assert (Hlen : length (toRowMap <$> drop 1
            ((λ rowNum, cellValue sheet rowNum <$> seq sc (ec + 1 - sc))
               <$> seq sr (er + 1 - sr))) = (er + 1 - sr - 1)%nat).
  { by rewrite length_fmap, length_drop, length_fmap, length_seq. }
  split; [exact Hlen|]. split; [lia|].
  intros k row Hrow colNum Hcol.
  rewrite list_lookup_fmap, lookup_drop, list_lookup_fmap in Hrow.
  destruct (seq sr (er + 1 - sr) !! (1 + k)%nat) as [rowNum|] eqn:Hseq;
    [|done].
  apply lookup_seq in Hseq as [-> Hk].
  simpl in Hrow. injection Hrow as <-.
  rewrite toRowMap_lookup, list_lookup_fmap.
  rewrite (lookup_seq_lt sc (ec + 1 - sc) (colNum - sc)) by lia.
  simpl. do 2 f_equal; lia.
Qed.

(** ** Form field populator *)

Section Populator.
Context `{Env}.

Lemma includes_true opts value : includes opts value = true ↔ value ∈ opts.
Proof. unfold includes. apply bool_decide_eq_true. Qed.

Lemma includes_false opts value : includes opts value = false ↔ value ∉ opts.
Proof. unfold includes. apply bool_decide_eq_false. Qed.

(** The steps of the populator on a field of the matching class. *)
Lemma do_setText_text st key value t :
  fields st !! key = Some (PDFTextField t) →
  do_setText st key value
  = Ok (logged st
          (<[key := PDFTextField (if decide (value = "") then None else Some value)]>
             (fields st))
          (setText key value)).
Proof. intros Hf. unfold do_setText, getTextField, getField. by rewrite Hf. Qed.

Lemma checkBoxCase_checkBox st key value b :
  fields st !! key = Some (PDFCheckBox b) →
  checkBoxCase st key value
  = Ok (logged st (<[key := PDFCheckBox (isTrue value)]> (fields st))
          (if isTrue value then check key else uncheck key)).
Proof.
  intros Hf. unfold checkBoxCase, do_check, do_uncheck, getCheckBox, getField.
  rewrite Hf. by destruct (isTrue value).
Qed.

Lemma radioGroupCase_radioGroup st key value opts sel :
  fields st !! key = Some (PDFRadioGroup opts sel) →
  radioGroupCase st key value
  = Ok (if includes opts value
        then logged st (<[key := PDFRadioGroup opts (Some value)]> (fields st))
               (selectRadioGroup key value)
        else st).
Proof.
  intros Hf. unfold radioGroupCase, do_selectRadioGroup, getRadioGroup, getField.
  rewrite Hf. simpl. by destruct (includes opts value).
Qed.

Lemma optionListCase_optionList st key value opts sel :
  fields st !! key = Some (PDFOptionList opts sel) →
  optionListCase st key value
  = Ok (if includes opts value
        then logged st (<[key := PDFOptionList opts [value]]> (fields st))
               (selectOptionList key value)
        else st).
Proof.
  intros Hf. unfold optionListCase, do_selectOptionList, getOptionList, getField.
  rewrite Hf. simpl. by destruct (includes opts value).
Qed.

Lemma dropdownCase_dropdown st key value opts sel :
  fields st !! key = Some (PDFDropdown opts sel) →
  dropdownCase st key value
  = Ok (if includes opts value
        then logged st (<[key := PDFDropdown opts [value]]> (fields st))
               (selectDropdown key value)
        else st).
Proof.
  intros Hf. unfold dropdownCase, do_selectDropdown, getDropdown, getField.
  rewrite Hf. simpl. by destruct (includes opts value).
Qed.

(** What [populateField] does to the form, whatever the entry: it never
    throws, and the class of every field stays what it was. *)
Lemma populateField_total row st entry :
  ∃ st', populateField row st entry = Ok st' ∧
         ∀ key, getFieldType (fields st' !! key) = getFieldType (fields st !! key).
Proof.
  unfold populateField. destruct entry as [key index]. simpl.
  case_decide; [by eexists|].
  destruct (fields st !! key) as [f|] eqn:Hf; [|by eexists].
  destruct f as [t|b|opts sel|opts sel|opts sel| |]; simpl; try by eexists.
  - rewrite (do_setText_text _ _ _ _ Hf). eexists. split; [done|].
    intros key'. simpl. destruct (decide (key = key')) as [<-|Hne].
    + by rewrite lookup_insert_eq, Hf.
    + by rewrite lookup_insert_ne.
  - rewrite (checkBoxCase_checkBox _ _ _ _ Hf). eexists. split; [done|].
    intros key'. simpl. destruct (decide (key = key')) as [<-|Hne].
    + by rewrite lookup_insert_eq, Hf.
    + by rewrite lookup_insert_ne.
  - rewrite (radioGroupCase_radioGroup _ _ _ _ _ Hf). eexists. split; [done|].
    intros key'. destruct (includes opts _); [|done].
    simpl. destruct (decide (key = key')) as [<-|Hne].
    + by rewrite lookup_insert_eq, Hf.
    + by rewrite lookup_insert_ne.
  - rewrite (optionListCase_optionList _ _ _ _ _ Hf). eexists. split; [done|].
    intros key'. destruct (includes opts _); [|done].
    simpl. destruct (decide (key = key')) as [<-|Hne].
    + by rewrite lookup_insert_eq, Hf.
    + by rewrite lookup_insert_ne.
  - rewrite (dropdownCase_dropdown _ _ _ _ _ Hf). eexists. split; [done|].
    intros key'. destruct (includes opts _); [|done].
    simpl. destruct (decide (key = key')) as [<-|Hne].
    + by rewrite lookup_insert_eq, Hf.
    + by rewrite lookup_insert_ne.
Qed.

Lemma foldM_populateField_total row formData st :
  ∃ st', foldM (populateField row) st formData = Ok st'.
Proof.
  revert st. induction formData as [|entry rest IH]; intros st; simpl.
  - by eexists.
  - destruct (populateField_total row st entry) as (st1 & -> & _). simpl. apply IH.
Qed.

(** The current [renderForm] returns normally on every input. *)
Lemma renderForm_total row formData form :
  ∃ st, renderForm row formData (Some form) = Ok (Some st).
Proof.
  unfold renderForm. destruct formData as [formData|]; [|by eexists].
  destruct (foldM_populateField_total row formData {| fields := form; calls := [] |})
    as [st ->].
  by eexists.
Qed.

End Populator.

(** C8. On a RadioGroup, OptionList or Dropdown field and a mapped row
    value, the populate step returns normally; when the coerced value is
    not in the field's option set the form and the log of calls are exactly
    what they were, and the step selects the value in the field (one
    [select] call, the field's selection set to the value and nothing else
    changed) if and only if the value is in the option set. *)
Theorem populateField_choice `{Env} row st key index f opts :
  fields st !! key = Some f →
  choiceOptions f = Some opts →
  mappedValue row index →
  let value := toString (row_get row index) in
  ∃ st',
    populateField row st (key, index) = Ok st' ∧
    (value ∉ opts → st' = st) ∧
    (fields st' = <[key := selectedTo f value]> (fields st) ∧
     calls st' = calls st ++ [selectCall f key value]
     ↔ value ∈ opts).
Proof.
  intros Hf Hopts (Hidx & Hundef & Hnull) value.
  unfold populateField. simpl.
  rewrite decide_False by tauto.
  rewrite Hf. fold value.
  assert (Hlog : ∀ call, calls st ≠ calls st ++ [call]).
  { intros call Heq. apply (f_equal length) in Heq.
    rewrite length_app in Heq. simpl in Heq. lia. }
  destruct f as [t|b|o sel|o sel|o sel| |]; simplify_eq/=.
  - rewrite (radioGroupCase_radioGroup _ _ _ _ _ Hf).
    destruct (includes opts value) eqn:Hin; eexists; (split; [reflexivity|]).
    + apply includes_true in Hin. by split.
    + apply includes_false in Hin. split; [done|].
      split; [|done]. intros [_ Hcalls]. by apply Hlog in Hcalls.
  - rewrite (optionListCase_optionList _ _ _ _ _ Hf).
    destruct (includes opts value) eqn:Hin; eexists; (split; [reflexivity|]).
    + apply includes_true in Hin. by split.
    + apply includes_false in Hin. split; [done|].
      split; [|done]. intros [_ Hcalls]. by apply Hlog in Hcalls.
  - rewrite (dropdownCase_dropdown _ _ _ _ _ Hf).
    destruct (includes opts value) eqn:Hin; eexists; (split; [reflexivity|]).
    + apply includes_true in Hin. by split.
    + apply includes_false in Hin. split; [done|].
      split; [|done]. intros [_ Hcalls]. by apply Hlog in Hcalls.
Qed.

Section Versions.
Context `{Env}.

Lemma populateField_versions row st key index :
  getFieldType (fields st !! key) ≠ Unsupported →
  (index ≠ (-1)%Z → mappedValue row index) →
  populateField_earlier row st (key, index) = populateField row st (key, index).
Proof.
  intros Hkind Hvalue. unfold populateField_earlier, populateField. simpl.
  destruct (decide (index = (-1)%Z)) as [->|Hidx].
  - by rewrite decide_True by tauto.
  - destruct (Hvalue Hidx) as (_ & Hundef & Hnull).
    rewrite decide_False by tauto.
    unfold js_get. destruct (fields st !! key) as [f|]; [|done].
    by destruct f.
Qed.

Lemma foldM_populateField_versions row formData st :
  Forall (λ entry : string * Z,
            getFieldType (fields st !! entry.1) ≠ Unsupported ∧
            (entry.2 ≠ (-1)%Z → mappedValue row entry.2)) formData →
  foldM (populateField_earlier row) st formData
  = foldM (populateField row) st formData.
Proof.
  revert st. induction formData as [|[key index] rest IH]; intros st Hall; [done|].
  apply Forall_cons in Hall as [[Hkind Hvalue] Hrest]. simpl in Hkind, Hvalue.
  simpl. rewrite (populateField_versions _ _ _ _ Hkind Hvalue).
  destruct (populateField_total row st (key, index)) as (st1 & -> & Hkinds).
  simpl. apply IH.
  eapply Forall_impl; [exact Hrest|].
  intros [key' index'] [Hk Hv]. simpl in *. by rewrite Hkinds.
Qed.

End Versions.

(** C10. When every mapped field name is a field of one of the five
    supported kinds and every mapped index other than the sentinel has a
    defined, non-null value in the row, the earlier populator (dispatch on
    the class name) and the current one (dispatch on [getFieldType]) have
    the same outcome: the same calls on the form in the same order, and
    the same form afterwards. *)
Theorem renderForm_versions_agree `{Env} row formData pdfForm :
  (∀ mapping form,
     formData = Some mapping → pdfForm = Some form →
     mappingResolved row mapping form) →
  renderForm_earlier row formData pdfForm = renderForm row formData pdfForm.
Proof.
  intros Hpre. unfold renderForm_earlier, renderForm.
  destruct pdfForm as [form|]; [|done].
  destruct formData as [mapping|]; [|done].
  by rewrite foldM_populateField_versions by exact (Hpre _ _ eq_refl eq_refl).
Qed.

(** ** Coordinate translation *)

Section Geometry.
Context `{Env}.

Lemma num_or_given dim d q : dim = Some q → q ≠ 0%Qc → num_or dim d = q.
Proof. intros -> Hq. unfold num_or. by rewrite decide_False. Qed.

Lemma num_or_zero dim : dim = Some 0%Qc ∨ dim = None → ∀ d, num_or dim d = d.
Proof. by intros [-> | ->] d. Qed.

(** A dimension whose default is zero reads as itself when present. *)
Lemma num_or_0 q : num_or (Some q) (num 0) = q.
Proof. unfold num_or. case_decide; [by subst|done]. Qed.

Lemma num_or_0_scale k dim :
  num_or (Qcmult k <$> dim) (num 0) = (k * num_or dim (num 0))%Qc.
Proof.
  destruct dim as [q|].
  - change (Qcmult k <$> Some q) with (Some (k * q)%Qc). by rewrite !num_or_0.
  - change (num_or (Qcmult k <$> None) (num 0)) with 0%Qc.
    change (num_or None (num 0)) with 0%Qc. ring.
Qed.

Lemma num_or_scale k dim d :
  k ≠ 0%Qc → given dim → num_or (Qcmult k <$> dim) d = (k * num_or dim d)%Qc.
Proof.
  intros Hk (q & -> & Hq). simpl. unfold num_or.
  rewrite (decide_False (P := q = 0%Qc)) by done.
  rewrite decide_False; [done|].
  intros [?|?]%Qcmult_integral; done.
Qed.

Lemma ratio_scale (k a pageWidth canvasWidth : Qc) :
  k ≠ 0%Qc → canvasWidth ≠ 0%Qc →
  (k * a * (pageWidth / (k * canvasWidth)) = a * (pageWidth / canvasWidth))%Qc.
Proof. intros Hk Hw. field. by split. Qed.

(** Scaling the canvas and the object by the same factor leaves the
    geometry as it was, provided no default replaces a dimension. *)
Lemma textGeometry_scale k o font pageWidth pageHeight canvasWidth :
  k ≠ 0%Qc → canvasWidth ≠ 0%Qc →
  given (fontSize o) → given (width o) → given (height o) →
  textGeometry (scaleObject k o) font pageWidth pageHeight (k * canvasWidth)
  = textGeometry o font pageWidth pageHeight canvasWidth.
Proof.
  intros Hk Hw Hfs Hwd Hh. unfold textGeometry. simpl.
  rewrite !num_or_0_scale, !num_or_scale by done.
  by rewrite !ratio_scale.
Qed.

End Geometry.

(** C4, as amended. For a text object whose left, top, height and font
    size are present, a page of the given size and a non-zero canvas
    width, the geometry is computed with [ratio = pageWidth / canvasWidth]
    as [x = left * ratio + 1] and
    [y = pageHeight - top * ratio - height * ratio + offset], [offset] being
    the font's height at [size] minus its height at [size] without the
    descender; [size] is [fontSize * ratio], except that a font size of zero
    is replaced by 16. *)
Theorem textGeometry_formula `{Env} o font pageWidth pageHeight canvasWidth l t h fs :
  canvasWidth ≠ 0%Qc →
  left o = Some l → top o = Some t → height o = Some h → fontSize o = Some fs →
  let ratio := (pageWidth / canvasWidth)%Qc in
  let size := ((if decide (fs = 0%Qc) then num 16 else fs) * ratio)%Qc in
  let offset := (heightAtSize font size true - heightAtSize font size false)%Qc in
  let g := textGeometry o font pageWidth pageHeight canvasWidth in
  g_size g = size ∧
  g_x g = (l * ratio + num 1)%Qc ∧
  g_y g = (pageHeight - t * ratio - h * ratio + offset)%Qc.
Proof.
  intros _ Hl Ht Hh Hfs ratio size offset g.
  unfold g, textGeometry. simpl. rewrite Hl, Ht, Hh, Hfs, !num_or_0.
  done.
Qed.

(** C4 as stated fails: a font size of zero does not give a size of zero. *)
Lemma textGeometry_fontSize_zero :
  fontSize Sample.zeroFontSize = Some (num 0) ∧
  g_size (@textGeometry Sample.env Sample.zeroFontSize Sample.helvetica
            (num 600) (num 800) (num 300))
  ≠ (num 0 * (num 600 / num 300))%Qc.
Proof.
  split; [done|].
  intros Heq. apply (f_equal this) in Heq. vm_compute in Heq. discriminate.
Qed.

Section Scaling.
Context `{Env}.

Lemma drawTextObject_scale k row o font pageWidth pageHeight canvasWidth :
  k ≠ 0%Qc → canvasWidth ≠ 0%Qc →
  given (fontSize o) → given (width o) → given (height o) →
  drawTextObject row (scaleObject k o) font pageWidth pageHeight (k * canvasWidth)
  = drawTextObject row o font pageWidth pageHeight canvasWidth.
Proof.
  intros Hk Hw Hfs Hwd Hh. unfold drawTextObject.
  rewrite textGeometry_scale by done.
  change (fill (scaleObject k o)) with (fill o).
  change (lineHeight (scaleObject k o)) with (lineHeight o).
  change (textAlignment (scaleObject k o)) with (textAlignment o).
  change (substitutedText row (scaleObject k o)) with (substitutedText row o).
  change (width (scaleObject k o)) with (Qcmult k <$> width o).
  by rewrite num_or_scale, ratio_scale by done.
Qed.

End Scaling.

(** C5, as amended. Doubling the canvas width together with the left, top,
    width, height and font size of a text object leaves the PDF-space
    geometry (size, x, y and bounds) and the [drawText] calls exactly as
    they were, provided the object's font size, width and height are
    present and not zero, so that no default takes their place. *)
Theorem textGeometry_doubling `{Env} row o font pageWidth pageHeight canvasWidth :
  canvasWidth ≠ 0%Qc →
  given (fontSize o) → given (width o) → given (height o) →
  textGeometry (scaleObject (num 2) o) font pageWidth pageHeight (num 2 * canvasWidth)
  = textGeometry o font pageWidth pageHeight canvasWidth ∧
  drawTextObject row (scaleObject (num 2) o) font pageWidth pageHeight
    (num 2 * canvasWidth)
  = drawTextObject row o font pageWidth pageHeight canvasWidth.
Proof.
  intros Hw Hfs Hwd Hh.
  assert (Hk : num 2 ≠ 0%Qc) by done.
  split.
  - by apply textGeometry_scale.
  - by apply drawTextObject_scale.
Qed.

(** C5 as stated fails: with a width of zero the bounds are 100 units wide
    at either scale, which are different widths on the page. *)
Lemma textGeometry_doubling_zero_width :
  @textGeometry Sample.env (scaleObject (num 2) Sample.zeroWidth) Sample.helvetica
    (num 600) (num 800) (num 2 * num 300)
  ≠ @textGeometry Sample.env Sample.zeroWidth Sample.helvetica
      (num 600) (num 800) (num 300).
Proof.
  intros Heq. apply (f_equal (λ g, this (b_width (g_bounds g)))) in Heq.
  vm_compute in Heq. discriminate.
Qed.

(** C9. Without an overlay description, or with a canvas width that is
    absent or zero, [renderPage] returns normally and has drawn nothing:
    the page, the document and the font cache are what they were. The
    ratio is computed in the loop body only, which is not run. *)
Theorem renderPage_no_overlay `{Env} row page pdfDoc cachedFonts canvasData canvasWidth :
  canvasData = None ∨ canvasWidth = None ∨ canvasWidth = Some 0%Qc →
  renderPage row page pdfDoc cachedFonts canvasData canvasWidth
  = Ok {| cv_page := page; cv_doc := pdfDoc; cv_fonts := cachedFonts |}.
Proof.
  intros [-> | [-> | ->]]; unfold renderPage.
  - done.
  - by destruct canvasData.
  - destruct canvasData; [|done]. by rewrite decide_True.
Qed.

Section Substitution.
Context `{Env}.

(** A column the row does not have is drawn as the text of [undefined]. *)
Lemma substitutedText_missing row o :
  row !! index o = None → substitutedText row o = "undefined".
Proof. intros Hrow. unfold substitutedText, row_get. by rewrite Hrow. Qed.

End Substitution.

(** C2 fails on the code. For the row with the single column 0 and a text
    object bound to column 3, [renderPage] draws the text "undefined". *)
Theorem renderPage_draws_undefined :
  ∃ cv,
    @renderPage Sample.env Sample.alice Sample.page Sample.document ∅
      (Some {| objects := [Sample.label 3] |}) (Some (num 300)) = Ok cv ∧
    d_text <$> pg_draws (cv_page cv) = ["undefined"].
Proof. eexists. split; [reflexivity|]. vm_compute. reflexivity. Qed.

(** ** Font cache and overlay drawing *)

Section Overlay.
Context `{Env}.

Lemma cacheConsistent_empty : cacheConsistent ∅.
Proof. intros key font Hlookup. by rewrite lookup_empty in Hlookup. Qed.

(** [getFont] returns a font of the requested name, changes only the
    font list of the document and keeps the cache consistent; it can
    only fail on a font that cannot be embedded. *)
Lemma getFont_spec font pdfDoc cachedFonts :
  cacheConsistent cachedFonts →
  isStandardFont (str_or font Helvetica) = true →
  ∃ f pdfDoc' cachedFonts',
    getFont font pdfDoc cachedFonts = Ok (f, pdfDoc', cachedFonts') ∧
    font_name f = str_or font Helvetica ∧
    cacheConsistent cachedFonts' ∧
    doc_id pdfDoc' = doc_id pdfDoc ∧
    doc_pages pdfDoc' = doc_pages pdfDoc ∧
    doc_form pdfDoc' = doc_form pdfDoc.
Proof.
  intros Hcache Hstd. unfold getFont.
  destruct (cachedFonts !! str_or font Helvetica) as [cached|] eqn:Hlookup.
  - exists cached, pdfDoc, cachedFonts. split_and!; try done. by apply Hcache.
  - unfold embedFont. rewrite Hstd. simpl.
    eexists _, _, _. split_and!; try done.
    intros key f Hf. destruct (decide (str_or font Helvetica = key)) as [<-|Hne].
    + rewrite lookup_insert_eq in Hf. by injection Hf as <-.
    + rewrite lookup_insert_ne in Hf by done. by apply Hcache.
Qed.

Lemma textGeometry_font o f f' pageWidth pageHeight canvasWidth :
  font_name f = font_name f' →
  textGeometry o f pageWidth pageHeight canvasWidth
  = textGeometry o f' pageWidth pageHeight canvasWidth.
Proof. intros Hname. unfold textGeometry, heightAtSize. by rewrite Hname. Qed.

(** Up to the owner of the font, the calls drawn for an object depend on
    the name of the font only. *)
Lemma drawTextObject_font row o f f' pageWidth pageHeight canvasWidth :
  font_name f = font_name f' →
  eraseOwner <$> drawTextObject row o f pageWidth pageHeight canvasWidth
  = eraseOwner <$> drawTextObject row o f' pageWidth pageHeight canvasWidth.
Proof.
  intros Hname. unfold drawTextObject, layoutMultilineText.
  rewrite (textGeometry_font o f f') by done. rewrite Hname.
  rewrite <- !list_fmap_compose. apply list_fmap_ext.
  intros i p _. unfold eraseOwner. simpl. by rewrite Hname.
Qed.

Lemma foldM_cons {A B} (f : A → B → Outcome A) a b l :
  foldM f a (b :: l) = obind (f a b) (λ a', foldM f a' l).
Proof. reflexivity. Qed.

(** One pass of the loop over the objects of the overlay. *)
Lemma renderObject_spec row canvasWidth obj cv :
  cacheConsistent (cv_fonts cv) →
  (type obj = "text" → isStandardFont (fontKey obj) = true) →
  ∃ cv',
    renderObject row canvasWidth cv obj = Ok cv' ∧
    cacheConsistent (cv_fonts cv') ∧
    doc_id (cv_doc cv') = doc_id (cv_doc cv) ∧
    doc_pages (cv_doc cv') = doc_pages (cv_doc cv) ∧
    doc_form (cv_doc cv') = doc_form (cv_doc cv) ∧
    pg_width (cv_page cv') = pg_width (cv_page cv) ∧
    pg_height (cv_page cv') = pg_height (cv_page cv) ∧
    pg_values (cv_page cv') = pg_values (cv_page cv) ∧
    eraseOwner <$> pg_draws (cv_page cv')
    = (eraseOwner <$> pg_draws (cv_page cv))
      ++ (if decide (type obj = "text") then
            eraseOwner <$>
              drawTextObject row obj {| font_doc := 0; font_name := fontKey obj |}
                (pg_width (cv_page cv)) (pg_height (cv_page cv)) canvasWidth
          else []).
Proof.
  intros Hcache Hstd. unfold renderObject.
  destruct (decide (type obj = "text")) as [Htext|Hother].
  - destruct (getFont_spec (fontFamily obj) (cv_doc cv) (cv_fonts cv) Hcache
                (Hstd Htext))
      as (f & pdfDoc' & cachedFonts' & -> & Hname & Hcache' & Hid & Hpages & Hform).
    eexists. split; [reflexivity|]. simpl. split_and!; try done.
    rewrite fmap_app. f_equal. by apply drawTextObject_font.
  - exists cv. split_and!; try done. by rewrite app_nil_r.
Qed.

(** The loop over the objects of the overlay. *)
Lemma foldM_renderObject_spec row canvasWidth objs cv :
  cacheConsistent (cv_fonts cv) →
  (∀ obj, obj ∈ objs → type obj = "text" → isStandardFont (fontKey obj) = true) →
  ∃ cv',
    foldM (renderObject row canvasWidth) cv objs = Ok cv' ∧
    cacheConsistent (cv_fonts cv') ∧
    doc_id (cv_doc cv') = doc_id (cv_doc cv) ∧
    doc_pages (cv_doc cv') = doc_pages (cv_doc cv) ∧
    doc_form (cv_doc cv') = doc_form (cv_doc cv) ∧
    pg_width (cv_page cv') = pg_width (cv_page cv) ∧
    pg_height (cv_page cv') = pg_height (cv_page cv) ∧
    pg_values (cv_page cv') = pg_values (cv_page cv) ∧
    eraseOwner <$> pg_draws (cv_page cv')
    = (eraseOwner <$> pg_draws (cv_page cv))
      ++ (obj ← objs;
          if decide (type obj = "text") then
            eraseOwner <$>
              drawTextObject row obj {| font_doc := 0; font_name := fontKey obj |}
                (pg_width (cv_page cv)) (pg_height (cv_page cv)) canvasWidth
          else []).
Proof.
  revert cv. induction objs as [|obj objs IH]; intros cv Hcache Hstd.
  - exists cv. simpl. by rewrite app_nil_r.
  - rewrite foldM_cons.
    destruct (renderObject_spec row canvasWidth obj cv Hcache)
      as (cv1 & -> & Hcache1 & Hid1 & Hpages1 & Hform1 & Hw1 & Hh1 & Hv1 & Hdraws1).
    { apply Hstd. left. }
    destruct (IH cv1 Hcache1)
      as (cv' & Hfold & Hcache' & Hid' & Hpages' & Hform' & Hw' & Hh' & Hv' & Hdraws').
    { intros obj' Hin. apply Hstd. by right. }
    exists cv'. split; [exact Hfold|]. split_and!; [done|congruence..|].
    rewrite Hdraws', Hdraws1, Hw1, Hh1, <- app_assoc. done.
Qed.

(** [renderPage] on a consistent cache: it returns normally, touches
    nothing but the draws of the page, the font list and the cache, and
    draws what [overlayDraws] says whatever the cache held. *)
Lemma renderPage_spec row page pdfDoc cachedFonts canvasData canvasWidth :
  cacheConsistent cachedFonts →
  fontsStandard canvasData →
  ∃ cv,
    renderPage row page pdfDoc cachedFonts canvasData canvasWidth = Ok cv ∧
    cacheConsistent (cv_fonts cv) ∧
    doc_id (cv_doc cv) = doc_id pdfDoc ∧
    doc_pages (cv_doc cv) = doc_pages pdfDoc ∧
    doc_form (cv_doc cv) = doc_form pdfDoc ∧
    pg_width (cv_page cv) = pg_width page ∧
    pg_height (cv_page cv) = pg_height page ∧
    pg_values (cv_page cv) = pg_values page ∧
    eraseOwner <$> pg_draws (cv_page cv)
    = (eraseOwner <$> pg_draws page) ++ overlayDraws row page canvasData canvasWidth.
Proof.
  intros Hcache Hstd. unfold renderPage, overlayDraws.
  destruct canvasData as [canvas|], canvasWidth as [w|];
    try (eexists; split_and!; [reflexivity|try done..]; simpl; by rewrite app_nil_r).
  destruct (decide (w = 0%Qc)).
  - eexists; split_and!; [reflexivity|try done..]. simpl. by rewrite app_nil_r.
  - apply (foldM_renderObject_spec row w (objects canvas)
             {| cv_page := page; cv_doc := pdfDoc; cv_fonts := cachedFonts |});
      [done|].
    intros obj Hin. by apply (Hstd canvas).
Qed.

Lemma cacheEmbeddable_empty : cacheEmbeddable ∅.
Proof. intros key [font Hfont]. by rewrite lookup_empty in Hfont. Qed.

(** A pass of the loop that returns has found the font it asked for in
    the cache or could embed it. *)
Lemma renderObject_embeddable row canvasWidth obj cv cv' :
  cacheEmbeddable (cv_fonts cv) →
  renderObject row canvasWidth cv obj = Ok cv' →
  cacheEmbeddable (cv_fonts cv') ∧
  (type obj = "text" → isStandardFont (fontKey obj) = true).
Proof.
  intros Hemb. unfold renderObject.
  destruct (decide (type obj = "text")) as [Htext|Hother];
    [|intros [= <-]; by split].
  unfold getFont. fold (fontKey obj).
  destruct (cv_fonts cv !! fontKey obj) as [cached|] eqn:Hlookup.
  - simpl. intros [= <-]. simpl. split; [done|]. intros _. apply Hemb. by eexists.
  - unfold embedFont. destruct (isStandardFont (fontKey obj)) eqn:Hkey; [|done].
    simpl. intros [= <-]. simpl. split; [|done].
    intros key. destruct (decide (fontKey obj = key)) as [<-|Hne]; [done|].
    rewrite lookup_insert_ne by done. apply Hemb.
Qed.

Lemma foldM_renderObject_embeddable row canvasWidth objs cv cv' :
  cacheEmbeddable (cv_fonts cv) →
  foldM (renderObject row canvasWidth) cv objs = Ok cv' →
  cacheEmbeddable (cv_fonts cv') ∧
  ∀ obj, obj ∈ objs → type obj = "text" → isStandardFont (fontKey obj) = true.
Proof.
  revert cv. induction objs as [|obj objs IH]; intros cv Hemb.
  - intros [= <-]. split; [done|]. by intros obj ?%elem_of_nil.
  - rewrite foldM_cons.
    destruct (renderObject row canvasWidth cv obj) as [cv1|] eqn:Hobj; [|done].
    destruct (renderObject_embeddable _ _ _ _ _ Hemb Hobj) as [Hemb1 Hstd1].
    simpl. intros Hfold. destruct (IH cv1 Hemb1 Hfold) as [Hemb' Hstd'].
    split; [done|].
    intros obj' [->|Hin]%elem_of_cons; [done|by apply Hstd'].
Qed.

(** [renderPage] when it returns, on a consistent cache of embeddable
    fonts: it has touched nothing but the draws of the page, the font list
    and the cache, and has drawn what [overlayDraws] says, whatever the
    cache held. *)
Lemma renderPage_returned row page pdfDoc cachedFonts canvasData canvasWidth cv :
  cacheConsistent cachedFonts →
  cacheEmbeddable cachedFonts →
  renderPage row page pdfDoc cachedFonts canvasData canvasWidth = Ok cv →
  cacheConsistent (cv_fonts cv) ∧
  cacheEmbeddable (cv_fonts cv) ∧
  doc_pages (cv_doc cv) = doc_pages pdfDoc ∧
  pg_width (cv_page cv) = pg_width page ∧
  pg_height (cv_page cv) = pg_height page ∧
  eraseOwner <$> pg_draws (cv_page cv)
  = (eraseOwner <$> pg_draws page) ++ overlayDraws row page canvasData canvasWidth.
Proof.
  intros Hcache Hemb. unfold renderPage, overlayDraws.
  destruct canvasData as [canvas|], canvasWidth as [w|];
    try (intros [= <-]; simpl; by rewrite app_nil_r).
  destruct (decide (w = 0%Qc)); [intros [= <-]; simpl; by rewrite app_nil_r|].
  intros Hrun.
  destruct (foldM_renderObject_embeddable row w (objects canvas)
              {| cv_page := page; cv_doc := pdfDoc; cv_fonts := cachedFonts |}
              cv Hemb Hrun) as [Hemb' Hstd].
  destruct (foldM_renderObject_spec row w (objects canvas)
              {| cv_page := page; cv_doc := pdfDoc; cv_fonts := cachedFonts |}
              Hcache Hstd)
    as (cv' & Hfold & Hcache' & _ & Hpages & _ & Hw & Hh & _ & Hdraws).
  rewrite Hrun in Hfold. injection Hfold as <-. done.
Qed.

End Overlay.


(** ** Document assembler *)

Section Steps.
Context `{Env}.

Lemma bind_ok {A B} (m : M A) (k : A → M B) w a w1 :
  m w = (Ok a, w1) → (m ≫= k) w = k a w1.
Proof. intros Hm. unfold mbind, M_bind. by rewrite Hm. Qed.

Lemma bind_throw {A B} (m : M A) (k : A → M B) w e w1 :
  m w = (Throw e, w1) → (m ≫= k) w = (Throw e, w1).
Proof. intros Hm. unfold mbind, M_bind. by rewrite Hm. Qed.

Lemma lift_ok {A} (o : Outcome A) a w : o = Ok a → lift o w = (Ok a, w).
Proof. by intros ->. Qed.

Lemma lift_throw {A} (o : Outcome A) e w : o = Throw e → lift o w = (Throw e, w).
Proof. by intros ->. Qed.

(** [save] adds nothing to a document that has a page. *)
Lemma save_pages doc :
  doc_pages doc ≠ [] →
  save doc = {| bytes_pages := doc_pages doc; bytes_form := doc_form doc |}.
Proof. unfold save. by destruct (doc_pages doc). Qed.

Lemma save_addPage doc page :
  save (addPage doc page)
  = {| bytes_pages := doc_pages doc ++ [page]; bytes_form := doc_form doc |}.
Proof. unfold save, addPage. simpl. by destruct (doc_pages doc). Qed.

(** The loop body, once the populator, [getPage] and [renderPage] have
    returned: the state and the world it leaves in either mode. In split
    mode the body throws when the file of the row cannot be written; the
    reload of the saved working document has then taken place. *)
Lemma iteration_run output pdfBuff pageIndex (combinePdf : bool) canvasData
    canvasWidth formData i row st w fs page cv :
  renderForm row formData (Some (doc_form (ls_pdfDoc st))) = Ok (Some fs) →
  getPage (ls_pdfDoc st) pageIndex = Ok page →
  renderPage row page (ls_pdfDoc st) (ls_cachedFonts st) canvasData canvasWidth
  = Ok cv →
  doc_pages (cv_doc cv) = doc_pages (ls_pdfDoc st) →
  iteration output pdfBuff pageIndex combinePdf canvasData canvasWidth formData
    i row st w
  = if combinePdf then
      (Ok {| ls_pdfDoc := parsed pdfBuff (S (next_doc w));
             ls_newDoc := addPage (ls_newDoc st) (copiedPage cv (fields fs));
             ls_cachedFonts := cv_fonts cv |},
       {| files := files w; next_doc := S (S (next_doc w)) |})
    else if writable (outputName output i) then
      (Ok {| ls_pdfDoc := parsed pdfBuff (S (S (next_doc w)));
             ls_newDoc := {| doc_id := S (next_doc w); doc_pages := [];
                             doc_form := ∅; doc_fonts := [] |};
             ls_cachedFonts := ∅ |},
       {| files :=
            files w
            ++ [(outputName output i,
                 save (addPage (ls_newDoc st) (copiedPage cv (fields fs))))];
          next_doc := S (S (S (next_doc w))) |})
    else
      (Throw (IOError (outputName output i)),
       {| files := files w; next_doc := S (next_doc w) |}).
Proof.
  intros Hfs Hpage Hcv Hpages.
  assert (Hlt : (pageIndex < length (doc_pages (cv_doc cv)))%nat).
  { rewrite Hpages. unfold getPage in Hpage.
    destruct (doc_pages (ls_pdfDoc st) !! pageIndex) eqn:Hlookup; [|done].
    by apply lookup_lt_Some in Hlookup. }
  assert (Hsave : save (workingDocument cv (fields fs) pageIndex)
                  = {| bytes_pages := <[pageIndex := cv_page cv]> (doc_pages (cv_doc cv));
                       bytes_form := fields fs |}).
  { apply save_pages. simpl. intros Hnil. apply (f_equal length) in Hnil.
    rewrite length_insert in Hnil. simpl in Hnil. lia. }
  unfold iteration.
  rewrite (bind_ok _ _ w (Some fs) w) by (by apply lift_ok).
  rewrite (bind_ok _ _ w page w) by (by apply lift_ok).
  rewrite (bind_ok _ _ w cv w) by (by apply lift_ok).
  cbn [from_option]. rewrite Hsave.
  rewrite (bind_ok _ _ w _ _) by reflexivity.
  erewrite bind_ok; cycle 1.
  { apply lift_ok. unfold copyPages, getPage. cbn.
    rewrite list_lookup_insert_eq by done. reflexivity. }
  destruct combinePdf; [done|].
  cbn [negb]. unfold mbind at 1, M_bind at 1. unfold mbind at 1, M_bind at 1.
  unfold writeFile. cbn [files next_doc].
  by destruct (writable (outputName output i)).
Qed.

(** The loop body throws what [getPage] throws, before anything is
    loaded or written. *)
Lemma iteration_page_out_of_range output pdfBuff pageIndex combinePdf canvasData
    canvasWidth formData i row st w :
  doc_pages (ls_pdfDoc st) !! pageIndex = None →
  iteration output pdfBuff pageIndex combinePdf canvasData canvasWidth formData
    i row st w
  = (Throw (PageOutOfRange pageIndex), w).
Proof.
  intros Hpage. unfold iteration.
  destruct (renderForm_total row formData (doc_form (ls_pdfDoc st))) as [fs Hfs].
  erewrite bind_ok by (apply lift_ok; exact Hfs).
  apply bind_throw, lift_throw. unfold getPage. by rewrite Hpage.
Qed.

(** It throws what [renderPage] throws, likewise. *)
Lemma iteration_renderPage_throws output pdfBuff pageIndex combinePdf canvasData
    canvasWidth formData i row st w page e :
  getPage (ls_pdfDoc st) pageIndex = Ok page →
  renderPage row page (ls_pdfDoc st) (ls_cachedFonts st) canvasData canvasWidth
  = Throw e →
  iteration output pdfBuff pageIndex combinePdf canvasData canvasWidth formData
    i row st w
  = (Throw e, w).
Proof.
  intros Hpage Hcv. unfold iteration.
  destruct (renderForm_total row formData (doc_form (ls_pdfDoc st))) as [fs Hfs].
  erewrite bind_ok by (apply lift_ok; exact Hfs).
  erewrite bind_ok by (apply lift_ok; exact Hpage).
  by apply bind_throw, lift_throw.
Qed.

End Steps.

Section Assembler.
Context `{Env}.
Variables (output : string) (pdfBuff : PdfBytes) (pageIndex : nat)
  (canvasData : option CanvasObjects) (canvasWidth : option Qc)
  (formData : option FormMap) (target : PDFPage).
Hypothesis Htarget : bytes_pages pdfBuff !! pageIndex = Some target.

(** One row, when the loop body returns: the page of the row has been
    appended to the output document in combined mode, written to its own
    file in split mode; the working document is a fresh copy again and the
    cache is still a consistent cache of embeddable fonts. *)
Lemma iteration_returned (combinePdf : bool) i row st w st' w' :
  freshCopy pdfBuff (ls_pdfDoc st) →
  cacheConsistent (ls_cachedFonts st) →
  cacheEmbeddable (ls_cachedFonts st) →
  iteration output pdfBuff pageIndex combinePdf canvasData canvasWidth formData
    i row st w = (Ok st', w') →
  ∃ page,
    anonymous page
    = mergedPage pdfBuff target canvasData canvasWidth formData row ∧
    freshCopy pdfBuff (ls_pdfDoc st') ∧
    cacheConsistent (ls_cachedFonts st') ∧
    cacheEmbeddable (ls_cachedFonts st') ∧
    if combinePdf then
      files w' = files w ∧
      doc_pages (ls_newDoc st') = doc_pages (ls_newDoc st) ++ [page] ∧
      doc_form (ls_newDoc st') = doc_form (ls_newDoc st)
    else
      files w' = files w ++ [(outputName output i,
                              {| bytes_pages := doc_pages (ls_newDoc st) ++ [page];
                                 bytes_form := doc_form (ls_newDoc st) |})] ∧
      doc_pages (ls_newDoc st') = [] ∧
      doc_form (ls_newDoc st') = ∅.
Proof.
  intros [Hpages Hform] Hcache Hemb Hrun.
  destruct (renderForm_total row formData (doc_form (ls_pdfDoc st))) as [fs Hfs].
  assert (Hpage : getPage (ls_pdfDoc st) pageIndex = Ok target).
  { unfold getPage. by rewrite Hpages, Htarget. }
  destruct (renderPage row target (ls_pdfDoc st) (ls_cachedFonts st)
              canvasData canvasWidth) as [cv|e] eqn:Hcv; cycle 1.
  { by rewrite (iteration_renderPage_throws _ _ _ _ _ _ _ _ _ _ _ _ _ Hpage Hcv)
      in Hrun. }
  destruct (renderPage_returned _ _ _ _ _ _ _ Hcache Hemb Hcv)
    as (Hcache' & Hemb' & Hcvpages & Hw & Hh & Hdraws).
  assert (Hmerged : anonymous (copiedPage cv (fields fs))
                    = mergedPage pdfBuff target canvasData canvasWidth formData row).
  { unfold anonymous, mergedPage, copiedPage.
    cbn [pg_width pg_height pg_draws pg_values].
    rewrite Hw, Hh, Hdraws. f_equal.
    unfold populatedForm. by rewrite <- Hform, Hfs. }
  rewrite (iteration_run _ _ _ _ _ _ _ _ _ _ _ _ _ _ Hfs Hpage Hcv Hcvpages) in Hrun.
  exists (copiedPage cv (fields fs)).
  destruct combinePdf.
  - injection Hrun as <- <-. by split_and!.
  - destruct (writable (outputName output i)); [|done].
    injection Hrun as <- <-. rewrite save_addPage.
    split_and!;
      first [done | apply cacheConsistent_empty | apply cacheEmbeddable_empty].
Qed.

(** The row loop in combined mode, when it returns: nothing has been
    written, one page per row has been appended to the output document, in
    the order of the rows. *)
Lemma rowLoop_combined_returned rows i st w st' w' :
  freshCopy pdfBuff (ls_pdfDoc st) →
  cacheConsistent (ls_cachedFonts st) →
  cacheEmbeddable (ls_cachedFonts st) →
  rowLoop output pdfBuff pageIndex true canvasData canvasWidth formData
    i rows st w = (Ok st', w') →
  ∃ pages,
    files w' = files w ∧
    doc_pages (ls_newDoc st') = doc_pages (ls_newDoc st) ++ pages ∧
    doc_form (ls_newDoc st') = doc_form (ls_newDoc st) ∧
    anonymous <$> pages
    = mergedPage pdfBuff target canvasData canvasWidth formData <$> rows.
Proof.
  revert i st w. induction rows as [|row rows IH]; intros i st w Hfresh Hcache Hemb.
  - intros [= <- <-]. exists []. split_and!; try done. by rewrite app_nil_r.
  - cbn [rowLoop]. unfold mbind at 1, M_bind at 1.
    destruct (iteration _ _ _ _ _ _ _ i row st w) as [[st1|e] w1] eqn:Hiter; [|done].
    intros Hloop.
    destruct (iteration_returned true i row st w st1 w1 Hfresh Hcache Hemb Hiter)
      as (page & Hpage & Hfresh1 & Hcache1 & Hemb1 & Hfiles1 & Hpages1 & Hform1).
    destruct (IH (S i) st1 w1 Hfresh1 Hcache1 Hemb1 Hloop)
      as (pages & Hfiles & Hpages & Hform & Hmerged).
    exists (page :: pages). split_and!.
    + congruence.
    + by rewrite Hpages, Hpages1, <- app_assoc.
    + congruence.
    + by rewrite !fmap_cons, Hpage, Hmerged.
Qed.

(** The row loop in split mode, when it returns: one file per row has
    been written, named after the row number and holding the page of the
    row alone. *)
Lemma rowLoop_split_returned rows i st w st' w' :
  freshCopy pdfBuff (ls_pdfDoc st) →
  cacheConsistent (ls_cachedFonts st) →
  cacheEmbeddable (ls_cachedFonts st) →
  doc_pages (ls_newDoc st) = [] →
  doc_form (ls_newDoc st) = ∅ →
  rowLoop output pdfBuff pageIndex false canvasData canvasWidth formData
    i rows st w = (Ok st', w') →
  ∃ pages,
    files w' = files w
               ++ imap (λ k page, (outputName output (i + k), singlePage page)) pages ∧
    anonymous <$> pages
    = mergedPage pdfBuff target canvasData canvasWidth formData <$> rows.
Proof.
  revert i st w.
  induction rows as [|row rows IH]; intros i st w Hfresh Hcache Hemb Hempty Hnoform.
  - intros [= <- <-]. exists []. split_and!; try done. by rewrite app_nil_r.
  - cbn [rowLoop]. unfold mbind at 1, M_bind at 1.
    destruct (iteration _ _ _ _ _ _ _ i row st w) as [[st1|e] w1] eqn:Hiter; [|done].
    intros Hloop.
    destruct (iteration_returned false i row st w st1 w1 Hfresh Hcache Hemb Hiter)
      as (page & Hpage & Hfresh1 & Hcache1 & Hemb1 & Hfiles1 & Hpages1 & Hform1).
    destruct (IH (S i) st1 w1 Hfresh1 Hcache1 Hemb1 Hpages1 Hform1 Hloop)
      as (pages & Hfiles & Hmerged).
    exists (page :: pages). split.
    + rewrite Hfiles, Hfiles1, Hempty, Hnoform, <- app_assoc.
      cbn [imap app]. rewrite Nat.add_0_r. do 2 f_equal.
      apply imap_ext. intros k page' _. simpl. do 2 f_equal. lia.
    + by rewrite !fmap_cons, Hpage, Hmerged.
Qed.

(** A whole run over at least one row, when it returns. *)
Lemma renderPdf_returned pdfFile excelFile rowsLimit (combinePdf : bool) rows w n w' :
  readFile pdfFile = Ok pdfBuff →
  readFirstSheet excelFile rowsLimit = Ok rows →
  rows ≠ [] →
  renderPdf output pdfFile pageIndex excelFile rowsLimit combinePdf
    canvasData canvasWidth formData w = (Ok n, w') →
  ∃ pages,
    n = (if combinePdf then 1%nat else length rows) ∧
    files w'
    = files w
      ++ (if combinePdf then [(output, {| bytes_pages := pages; bytes_form := ∅ |})]
          else imap (λ k page, (outputName output k, singlePage page)) pages) ∧
    anonymous <$> pages
    = mergedPage pdfBuff target canvasData canvasWidth formData <$> rows.
Proof.
  intros Hpdf Hrows Hsome. unfold renderPdf.
  rewrite (bind_ok _ _ w pdfBuff w) by (by apply lift_ok).
  rewrite (bind_ok _ _ w _ _) by reflexivity.
  rewrite (bind_ok _ _ _ _ _) by reflexivity.
  erewrite bind_ok by (by apply lift_ok).
  unfold mbind at 1, M_bind at 1.
  destruct (rowLoop _ _ _ _ _ _ _ _ _ _ _) as [[st'|e] w1] eqn:Hloop; [|done].
  destruct combinePdf.
  - eapply rowLoop_combined_returned in Hloop
      as (pages & Hfiles & Hpages & Hform & Hmerged);
      [|done|apply cacheConsistent_empty|apply cacheEmbeddable_empty].
    simpl in Hpages, Hform, Hfiles.
    unfold mbind, M_bind, writeFile, mret, M_ret.
    destruct (writable output); [|done]. intros [= <- <-].
    exists pages. split_and!; [done| |done]. cbn [files]. rewrite Hfiles.
    rewrite save_pages, Hpages, Hform; [done|].
    rewrite Hpages. intros ->. destruct rows; [done|].
    by rewrite fmap_cons in Hmerged.
  - eapply rowLoop_split_returned in Hloop as (pages & Hfiles & Hmerged);
      [|done|apply cacheConsistent_empty|apply cacheEmbeddable_empty|done..].
    simpl in Hfiles. intros [= <- <-]. by exists pages.
Qed.

End Assembler.


(** ** Names of the output files *)

Lemma append_inj_r (s1 s2 t : string) : s1 +:+ t = s2 +:+ t → s1 = s2.
Proof.
  assert (Hlen : ∀ a b : string, String.length (a +:+ b)
                                 = (String.length a + String.length b)%nat).
  { intros a b. induction a as [|ch a IH]; [done|].
    change (S (String.length (a +:+ b)) = S (String.length a + String.length b)).
    by rewrite IH. }
  revert s2. induction s1 as [|ch s1 IH]; intros [|ch' s2] Heq.
  - done.
  - apply (f_equal String.length) in Heq. rewrite !Hlen in Heq. simpl in Heq. lia.
  - apply (f_equal String.length) in Heq. rewrite !Hlen in Heq. simpl in Heq. lia.
  - change (String ch (s1 +:+ t) = String ch' (s2 +:+ t)) in Heq.
    injection Heq as -> Heq. f_equal. by apply IH.
Qed.

Lemma outputName_inj output i j : outputName output i = outputName output j → i = j.
Proof.
  unfold outputName. intros Heq.
  do 2 apply String.app_inj in Heq.
  apply append_inj_r, pretty_nat_inj in Heq. lia.
Qed.

Lemma outputName_NoDup output n : NoDup (outputName output <$> seq 0 n).
Proof.
  apply NoDup_fmap_2_strong; [|apply NoDup_seq].
  intros i j _ _. apply outputName_inj.
Qed.

Lemma imap_outputName output (pages : list PDFPage) :
  (imap (λ k page, (outputName output k, singlePage page)) pages).*1
  = outputName output <$> seq 0 (length pages).
Proof.
  apply list_eq. intros k.
  rewrite !list_lookup_fmap, list_lookup_imap.
  destruct (pages !! k) as [page|] eqn:Hk; simpl.
  - apply lookup_lt_Some in Hk as Hlt. by rewrite lookup_seq_lt.
  - apply lookup_ge_None in Hk. by rewrite lookup_seq_ge.
Qed.

(** What a loop body that returns has added to the names of the files
    written: nothing in combined mode, the name of its row in split
    mode. *)
Lemma iteration_names `{Env} output pdfBuff pageIndex (combinePdf : bool)
    canvasData canvasWidth formData i row st w st' w' :
  iteration output pdfBuff pageIndex combinePdf canvasData canvasWidth formData
    i row st w = (Ok st', w') →
  (files w').*1
  = (files w).*1 ++ (if combinePdf then [] else [outputName output i]).
Proof.
  unfold iteration, mbind, M_bind, lift, writeFile, PDFDocument_create,
    PDFDocument_load, mret, M_ret.
  intros Hrun. repeat case_match; simplify_eq/=;
    by rewrite ?fmap_app, ?app_nil_r.
Qed.

Lemma rowLoop_names `{Env} output pdfBuff pageIndex (combinePdf : bool)
    canvasData canvasWidth formData rows i st w st' w' :
  rowLoop output pdfBuff pageIndex combinePdf canvasData canvasWidth formData
    i rows st w = (Ok st', w') →
  (files w').*1
  = (files w).*1
    ++ (if combinePdf then [] else outputName output <$> seq i (length rows)).
Proof.
  revert i st w. induction rows as [|row rows IH]; intros i st w.
  - intros [= <- <-]. destruct combinePdf; by rewrite app_nil_r.
  - cbn [rowLoop]. unfold mbind at 1, M_bind at 1.
    destruct (iteration _ _ _ _ _ _ _ i row st w) as [[st1|e] w1] eqn:Hiter; [|done].
    intros Hloop. rewrite (IH _ _ _ Hloop), (iteration_names _ _ _ _ _ _ _ _ _ _ _ _ _ Hiter).
    rewrite <- app_assoc. by destruct combinePdf.
Qed.

(** C3. A run over N ≥ 1 rows that returns has, in combined mode,
    returned 1 and written one file, to [output], holding N pages; in
    split mode it has returned N and written N files under pairwise
    different names, each holding one page. In both modes the template
    could be read and has the target page, and page [k] is the page of
    row [k]: the target page of the template with the overlay of that row
    drawn on it and the field values of that row. *)
Theorem renderPdf_outputs `{Env} output pdfFile pageIndex excelFile rowsLimit
    (combinePdf : bool) canvasData canvasWidth formData rows w n w' :
  readFirstSheet excelFile rowsLimit = Ok rows →
  (1 ≤ length rows)%nat →
  renderPdf output pdfFile pageIndex excelFile rowsLimit combinePdf
    canvasData canvasWidth formData w = (Ok n, w') →
  ∃ pdfBuff target pages,
    readFile pdfFile = Ok pdfBuff ∧
    bytes_pages pdfBuff !! pageIndex = Some target ∧
    length pages = length rows ∧
    anonymous <$> pages
    = mergedPage pdfBuff target canvasData canvasWidth formData <$> rows ∧
    if combinePdf then
      n = 1%nat ∧
      files w' = files w ++ [(output, {| bytes_pages := pages; bytes_form := ∅ |})]
    else
      n = length rows ∧
      files w'
      = files w ++ imap (λ k page, (outputName output k, singlePage page)) pages ∧
      NoDup (outputName output <$> seq 0 (length rows)).
Proof.
  intros Hrows Hlen Hrun.
  assert (Hsome : rows ≠ []) by (intros ->; simpl in Hlen; lia).
  destruct (readFile pdfFile) as [pdfBuff|e] eqn:Hpdf; cycle 1.
  { unfold renderPdf in Hrun.
    by rewrite (bind_throw _ _ w e w) in Hrun by (by apply lift_throw). }
  destruct (bytes_pages pdfBuff !! pageIndex) as [target|] eqn:Htarget; cycle 1.
  { exfalso. destruct rows as [|row rest]; [done|].
    unfold renderPdf in Hrun.
    rewrite (bind_ok _ _ w pdfBuff w) in Hrun by (by apply lift_ok).
    rewrite (bind_ok _ _ w _ _) in Hrun by reflexivity.
    rewrite (bind_ok _ _ _ _ _) in Hrun by reflexivity.
    erewrite bind_ok in Hrun by (by apply lift_ok).
    erewrite bind_throw in Hrun; [done|].
    cbn [rowLoop]. apply bind_throw. by apply iteration_page_out_of_range. }
  destruct (renderPdf_returned output pdfBuff pageIndex canvasData canvasWidth
              formData target Htarget pdfFile excelFile rowsLimit combinePdf rows
              w n w' Hpdf Hrows Hsome Hrun)
    as (pages & Hn & Hfiles & Hmerged).
  exists pdfBuff, target, pages.
  assert (Hpages : length pages = length rows).
  { apply (f_equal length) in Hmerged. by rewrite !length_fmap in Hmerged. }
  split_and!; [done..|].
  destruct combinePdf; [done|].
  split_and!; [done..|]. apply outputName_NoDup.
Qed.

(** C6. In a run that returns, the file written for row number [k + 1]
    in split mode is named [outputName output k], which is [output] with
    the row number inserted before the final extension: when [output] is
    [base.ext], [ext] having no dot, the name is [base-(k+1).ext]. In
    combined mode the one file written is named [output]. *)
Theorem renderPdf_file_names `{Env} output pdfFile pageIndex excelFile rowsLimit
    (combinePdf : bool) canvasData canvasWidth formData rows w n w' :
  readFirstSheet excelFile rowsLimit = Ok rows →
  renderPdf output pdfFile pageIndex excelFile rowsLimit combinePdf
    canvasData canvasWidth formData w = (Ok n, w') →
  (files w').*1
  = (files w).*1
    ++ (if combinePdf then [output]
        else outputName output <$> seq 0 (length rows)) ∧
  ∀ base ext k,
    output = base +:+ "." +:+ ext → occurs dot ext = false →
    outputName output k = base +:+ "-" +:+ pretty (k + 1)%nat +:+ "." +:+ ext.
Proof.
  intros Hrows Hrun. split; cycle 1.
  { intros base ext k -> Hext. by apply outputName_extension. }
  unfold renderPdf in Hrun.
  destruct (readFile pdfFile) as [pdfBuff|e] eqn:Hpdf; cycle 1.
  { by rewrite (bind_throw _ _ w e w) in Hrun by (by apply lift_throw). }
  rewrite (bind_ok _ _ w pdfBuff w) in Hrun by (by apply lift_ok).
  rewrite (bind_ok _ _ w _ _) in Hrun by reflexivity.
  rewrite (bind_ok _ _ _ _ _) in Hrun by reflexivity.
  erewrite bind_ok in Hrun by (by apply lift_ok).
  unfold mbind at 1, M_bind at 1 in Hrun.
  destruct (rowLoop _ _ _ _ _ _ _ _ _ _ _) as [[st'|e] w1] eqn:Hloop; [|done].
  apply rowLoop_names in Hloop. simpl in Hloop.
  destruct combinePdf.
  - unfold mbind, M_bind, writeFile, mret, M_ret in Hrun.
    destruct (writable output); [|done]. injection Hrun as <- <-.
    cbn [files]. by rewrite fmap_app, Hloop, app_nil_r.
  - by injection Hrun as <- <-.
Qed.


(** ** The font cache across reloads *)

(** In split mode the cache is empty again when the row is done. *)
Lemma iteration_split_resets_cache `{Env} output pdfBuff pageIndex canvasData
    canvasWidth formData i row st w st' w' :
  iteration output pdfBuff pageIndex false canvasData canvasWidth formData
    i row st w = (Ok st', w') →
  ls_cachedFonts st' = ∅.
Proof.
  unfold iteration, mbind, M_bind, lift, writeFile, PDFDocument_create,
    PDFDocument_load, mret, M_ret.
  intros Hrun. repeat case_match; by simplify_eq/=.
Qed.

Section Cache.
Context `{Env}.

(** [getFont] leaves in the cache what was there, files the font it
    returns under its key, and embeds into the current document only. *)
Lemma getFont_cache n font pdfDoc cachedFonts f pdfDoc' cachedFonts' :
  (doc_id pdfDoc < n)%nat →
  cacheOwnedBefore n cachedFonts →
  getFont font pdfDoc cachedFonts = Ok (f, pdfDoc', cachedFonts') →
  cacheOwnedBefore n cachedFonts' ∧
  doc_id pdfDoc' = doc_id pdfDoc ∧
  cachedFonts ⊆ cachedFonts' ∧
  cachedFonts' !! str_or font Helvetica = Some f.
Proof.
  intros Hid Hown. unfold getFont.
  destruct (cachedFonts !! str_or font Helvetica) as [cached|] eqn:Hlookup.
  - intros [= <- <- <-]. by split_and!.
  - unfold embedFont. destruct (isStandardFont _); [|done].
    simpl. intros [= <- <- <-]. split_and!; simpl.
    + intros key font' Hfont'.
      destruct (decide (str_or font Helvetica = key)) as [<-|Hne].
      * rewrite lookup_insert_eq in Hfont'. by injection Hfont' as <-.
      * rewrite lookup_insert_ne in Hfont' by done. by eapply Hown.
    + done.
    + by apply insert_subseteq.
    + by rewrite lookup_insert_eq.
Qed.

Lemma renderObject_cache n row canvasWidth obj cv cv' :
  (doc_id (cv_doc cv) < n)%nat →
  cacheOwnedBefore n (cv_fonts cv) →
  renderObject row canvasWidth cv obj = Ok cv' →
  cacheOwnedBefore n (cv_fonts cv') ∧
  doc_id (cv_doc cv') = doc_id (cv_doc cv) ∧
  cv_fonts cv ⊆ cv_fonts cv' ∧
  (type obj = "text" → is_Some (cv_fonts cv' !! fontKey obj)).
Proof.
  intros Hid Hown. unfold renderObject.
  destruct (decide (type obj = "text")) as [Htext|Hother].
  - destruct (getFont (fontFamily obj) (cv_doc cv) (cv_fonts cv))
      as [[[f pdfDoc'] cachedFonts']|] eqn:Hfont; [|done].
    destruct (getFont_cache n _ _ _ _ _ _ Hid Hown Hfont) as (? & ? & ? & ?).
    simpl. intros [= <-]. simpl. split_and!; try done.
  - intros [= <-]. by split_and!.
Qed.

Lemma foldM_renderObject_cache n row canvasWidth objs cv cv' :
  (doc_id (cv_doc cv) < n)%nat →
  cacheOwnedBefore n (cv_fonts cv) →
  foldM (renderObject row canvasWidth) cv objs = Ok cv' →
  cacheOwnedBefore n (cv_fonts cv') ∧
  cv_fonts cv ⊆ cv_fonts cv' ∧
  ∀ obj, obj ∈ objs → type obj = "text" → is_Some (cv_fonts cv' !! fontKey obj).
Proof.
  revert cv. induction objs as [|obj objs IH]; intros cv Hid Hown.
  - intros [= <-]. split_and!; [done..|]. by intros obj ?%elem_of_nil.
  - rewrite foldM_cons.
    destruct (renderObject row canvasWidth cv obj) as [cv1|] eqn:Hobj; [|done].
    destruct (renderObject_cache n _ _ _ _ _ Hid Hown Hobj)
      as (Hown1 & Hid1 & Hsub1 & Hkey1).
    simpl. intros Hfold.
    destruct (IH cv1) as (Hown' & Hsub' & Hkeys'); [lia|done..|].
    split_and!; [done|by etrans|].
    intros obj' [->|Hin]%elem_of_cons Htext; [|by apply Hkeys'].
    destruct (Hkey1 Htext) as [f Hf]. exists f.
    by eapply lookup_weaken.
Qed.

(** Combined mode, any row, any overlay that draws text: after the loop
    body the cache still holds a font for every text object, and none of
    these belongs to the document instance the next row works on; this is
    the font [getFont] then returns. *)
Lemma combined_mode_cache_outlives_document output pdfBuff pageIndex canvasData
    canvasWidth formData target i row st w canvas cw obj :
  bytes_pages pdfBuff !! pageIndex = Some target →
  fontsStandard canvasData →
  freshCopy pdfBuff (ls_pdfDoc st) →
  cacheConsistent (ls_cachedFonts st) →
  (doc_id (ls_pdfDoc st) < next_doc w)%nat →
  cacheOwnedBefore (next_doc w) (ls_cachedFonts st) →
  canvasData = Some canvas → canvasWidth = Some cw → cw ≠ 0%Qc →
  obj ∈ objects canvas → type obj = "text" →
  ∃ st' w' f,
    iteration output pdfBuff pageIndex true canvasData canvasWidth formData
      i row st w = (Ok st', w') ∧
    getFont (fontFamily obj) (ls_pdfDoc st') (ls_cachedFonts st')
    = Ok (f, ls_pdfDoc st', ls_cachedFonts st') ∧
    font_doc f ≠ doc_id (ls_pdfDoc st').
Proof.
  intros Htarget Hfonts [Hpages Hform] Hcache Hid Hown -> -> Hcw Hin Htext.
  destruct (renderForm_total row formData (doc_form (ls_pdfDoc st))) as [fs Hfs].
  assert (Hpage : getPage (ls_pdfDoc st) pageIndex = Ok target).
  { unfold getPage. by rewrite Hpages, Htarget. }
  destruct (renderPage_spec row target (ls_pdfDoc st) (ls_cachedFonts st)
              (Some canvas) (Some cw) Hcache Hfonts)
    as (cv & Hcv & _ & _ & Hcvpages & _).
  rewrite (iteration_run _ _ _ true _ _ _ _ _ _ _ _ _ _ Hfs Hpage Hcv Hcvpages).
  unfold renderPage in Hcv. rewrite decide_False in Hcv by done.
  destruct (foldM_renderObject_cache (next_doc w) row cw (objects canvas)
              {| cv_page := target; cv_doc := ls_pdfDoc st;
                 cv_fonts := ls_cachedFonts st |} cv Hid Hown Hcv)
    as (Hown' & _ & Hkeys).
  destruct (Hkeys obj Hin Htext) as [f Hf].
  eexists _, _, f. split; [reflexivity|]. simpl. split.
  - unfold getFont. fold (fontKey obj). by rewrite Hf.
  - apply Hown' in Hf. lia.
Qed.

End Cache.

(** C1 fails on the code. In combined mode, after the first row of a
    merge with one text object, the working document is a new instance
    (identity 3) while the cache still holds the Helvetica handle embedded
    into the previous instance (identity 0); [getFont] called for the next
    row returns that handle. *)
Theorem combined_mode_keeps_font_handle :
  ∃ st' w' font,
    @iteration Sample.env "out.pdf" Sample.template 0 true
      (Some Sample.overlay) (Some (num 300)) None
      0 Sample.alice Sample.start Sample.started = (Ok st', w') ∧
    doc_id (ls_pdfDoc st') = 3%nat ∧
    @getFont Sample.env None (ls_pdfDoc st') (ls_cachedFonts st')
    = Ok (font, ls_pdfDoc st', ls_cachedFonts st') ∧
    font_doc font = 0%nat ∧
    font_doc font ≠ doc_id (ls_pdfDoc st').
Proof.
  pose (run := @iteration Sample.env "out.pdf" Sample.template 0 true
                 (Some Sample.overlay) (Some (num 300)) None
                 0 Sample.alice Sample.start Sample.started).
  exists (match run.1 with Ok st' => st' | Throw _ => Sample.start end), run.2,
         Sample.helvetica.
  split_and!; [by vm_compute..|]. by vm_compute.
Qed.

(** ** The model on the examples of the specification *)

Example outputName_example :
  outputName "a/b.pdf" 0 = "a/b-1.pdf" ∧
  outputName "out/merged.pdf" 1 = "out/merged-2.pdf".
Proof. split; reflexivity. Qed.

Example isTrue_examples :
  (isTrue <$> ["TRUE"; "true"; "True"]) = [true; true; true] ∧
  (isTrue <$> [""; "false"; "no"]) = [false; false; false].
Proof. split; reflexivity. Qed.

Example hexToRgb_examples :
  hexToRgb "#ff0010" = (255, 0, 16)%Z ∧
  hexToRgb "0A0b0C" = (10, 11, 12)%Z ∧
  hexToRgb "#000" = (0, 0, 0)%Z.
Proof. split_and!; reflexivity. Qed.

(** The end-to-end scenario: one text field, two data rows, combined
    mode; the one output file has two pages, showing Alice and Bob. *)
Example renderPdf_end_to_end :
  ∃ page1 page2 w',
    @renderPdf Sample.env "out/merged.pdf" "template.pdf" 0 "data.xlsx" 2 true
      None None (Some [("Name", 0%Z)]) Sample.world = (Ok 1%nat, w') ∧
    files w' = [("out/merged.pdf",
                 {| bytes_pages := [page1; page2]; bytes_form := ∅ |})] ∧
    pg_values page1 !! "Name" = Some (PDFTextField (Some "Alice")) ∧
    pg_values page2 !! "Name" = Some (PDFTextField (Some "Bob")).
Proof.
  pose (run := @renderPdf Sample.env "out/merged.pdf" "template.pdf" 0 "data.xlsx" 2
                 true None None (Some [("Name", 0%Z)]) Sample.world).
  pose (pages := from_option (λ f, bytes_pages f.2) [] (head (files run.2))).
  exists (default Sample.page (pages !! 0%nat)),
         (default Sample.page (pages !! 1%nat)), run.2.
  split_and!; by vm_compute.
Qed.

(** The same in split mode: two files, one page each, and 2 is returned. *)
Example renderPdf_end_to_end_split :
  ∃ page1 page2 w',
    @renderPdf Sample.env "out/merged.pdf" "template.pdf" 0 "data.xlsx" 2 false
      None None (Some [("Name", 0%Z)]) Sample.world = (Ok 2%nat, w') ∧
    files w' = [("out/merged-1.pdf", singlePage page1);
                ("out/merged-2.pdf", singlePage page2)] ∧
    pg_values page1 !! "Name" = Some (PDFTextField (Some "Alice")) ∧
    pg_values page2 !! "Name" = Some (PDFTextField (Some "Bob")).
Proof.
  pose (run := @renderPdf Sample.env "out/merged.pdf" "template.pdf" 0 "data.xlsx" 2
                 false None None (Some [("Name", 0%Z)]) Sample.world).
  pose (page := λ k : nat,
          default Sample.page (files run.2 !! k ≫= λ f, head (bytes_pages f.2))).
  exists (page 0%nat), (page 1%nat), run.2.
  split_and!; by vm_compute.
Qed.

(** * The theorems at sample inputs *)

Lemma renderPdf_outputs_witness :
  let run := @renderPdf Sample.env "out.pdf" "template.pdf" 0 "data.xlsx" 5 true
               (Some Sample.overlay) (Some (num 300)) (Some Sample.mapping)
               Sample.world in
  @readFirstSheet Sample.env "data.xlsx" 5 = Ok Sample.rows ∧
  (1 ≤ length Sample.rows)%nat ∧
  run = (Ok 1%nat, run.2) ∧
  ∃ pdfBuff target pages,
    @readFile Sample.env "template.pdf" = Ok pdfBuff ∧
    bytes_pages pdfBuff !! 0%nat = Some target ∧
    length pages = length Sample.rows ∧
    anonymous <$> pages
    = @mergedPage Sample.env pdfBuff target (Some Sample.overlay)
        (Some (num 300)) (Some Sample.mapping) <$> Sample.rows ∧
    1%nat = 1%nat ∧
    files run.2 = files Sample.world
                  ++ [("out.pdf", {| bytes_pages := pages; bytes_form := ∅ |})].
Proof.
  intros run.
  assert (Hrows : @readFirstSheet Sample.env "data.xlsx" 5 = Ok Sample.rows)
    by (vm_compute; reflexivity).
  assert (Hlen : (1 ≤ length Sample.rows)%nat) by (simpl; lia).
  assert (Hrun : run = (Ok 1%nat, run.2)) by (vm_compute; reflexivity).
  split_and!; [done..|].
  exact (@renderPdf_outputs Sample.env "out.pdf" "template.pdf" 0 "data.xlsx" 5
           true (Some Sample.overlay) (Some (num 300)) (Some Sample.mapping)
           Sample.rows Sample.world 1%nat run.2 Hrows Hlen Hrun).
Defined.

Lemma renderPdf_file_names_witness :
  let run := @renderPdf Sample.env "a/b.pdf" "template.pdf" 0 "data.xlsx" 5 false
               (Some Sample.overlay) (Some (num 300)) (Some Sample.mapping)
               Sample.world in
  @readFirstSheet Sample.env "data.xlsx" 5 = Ok Sample.rows ∧
  run = (Ok 2%nat, run.2) ∧
  (files run.2).*1
  = (files Sample.world).*1 ++ (outputName "a/b.pdf" <$> seq 0 (length Sample.rows)) ∧
  ∀ base ext k,
    "a/b.pdf" = base +:+ "." +:+ ext → occurs dot ext = false →
    outputName "a/b.pdf" k = base +:+ "-" +:+ pretty (k + 1)%nat +:+ "." +:+ ext.
Proof.
  intros run.
  assert (Hrows : @readFirstSheet Sample.env "data.xlsx" 5 = Ok Sample.rows)
    by (vm_compute; reflexivity).
  assert (Hrun : run = (Ok 2%nat, run.2)) by (vm_compute; reflexivity).
  split_and!; [done..| |];
    apply (@renderPdf_file_names Sample.env "a/b.pdf" "template.pdf" 0 "data.xlsx" 5
             false (Some Sample.overlay) (Some (num 300)) (Some Sample.mapping)
             Sample.rows Sample.world 2%nat run.2 Hrows Hrun).
Defined.

Lemma textGeometry_formula_witness :
  num 300 ≠ 0%Qc ∧
  left (Sample.label 0) = Some (num 10) ∧
  top (Sample.label 0) = Some (num 20) ∧
  height (Sample.label 0) = Some (num 30) ∧
  fontSize (Sample.label 0) = Some (num 12) ∧
  let ratio := (num 600 / num 300)%Qc in
  let size := ((if decide (num 12 = 0%Qc) then num 16 else num 12) * ratio)%Qc in
  let offset := (@heightAtSize Sample.env Sample.helvetica size true
                 - @heightAtSize Sample.env Sample.helvetica size false)%Qc in
  let g := @textGeometry Sample.env (Sample.label 0) Sample.helvetica
             (num 600) (num 800) (num 300) in
  g_size g = size ∧
  g_x g = (num 10 * ratio + num 1)%Qc ∧
  g_y g = (num 800 - num 20 * ratio - num 30 * ratio + offset)%Qc.
Proof.
  assert (Hw : num 300 ≠ 0%Qc) by done.
  split_and!; [done..|].
  exact (@textGeometry_formula Sample.env (Sample.label 0) Sample.helvetica
           (num 600) (num 800) (num 300) (num 10) (num 20) (num 30) (num 12)
           Hw eq_refl eq_refl eq_refl eq_refl).
Defined.

Lemma textGeometry_doubling_witness :
  num 300 ≠ 0%Qc ∧
  given (fontSize (Sample.label 0)) ∧
  given (width (Sample.label 0)) ∧
  given (height (Sample.label 0)) ∧
  @textGeometry Sample.env (scaleObject (num 2) (Sample.label 0)) Sample.helvetica
    (num 600) (num 800) (num 2 * num 300)
  = @textGeometry Sample.env (Sample.label 0) Sample.helvetica
      (num 600) (num 800) (num 300) ∧
  @drawTextObject Sample.env Sample.alice (scaleObject (num 2) (Sample.label 0))
    Sample.helvetica (num 600) (num 800) (num 2 * num 300)
  = @drawTextObject Sample.env Sample.alice (Sample.label 0)
      Sample.helvetica (num 600) (num 800) (num 300).
Proof.
  assert (Hw : num 300 ≠ 0%Qc) by done.
  assert (Hfs : given (fontSize (Sample.label 0))) by (by eexists).
  assert (Hwd : given (width (Sample.label 0))) by (by eexists).
  assert (Hh : given (height (Sample.label 0))) by (by eexists).
  split_and!; [done..| |];
    apply (@textGeometry_doubling Sample.env Sample.alice (Sample.label 0)
             Sample.helvetica (num 600) (num 800) (num 300) Hw Hfs Hwd Hh).
Defined.

Lemma readFirstSheet_rectangular_witness :
  @XLSX_readFile Sample.env "data.xlsx" (5 + 1) = Ok (Sample.workbook 6) ∧
  XLSX.SheetNames (Sample.workbook 6) !! 0%nat = Some "Sheet1" ∧
  XLSX.Sheets (Sample.workbook 6) !! "Sheet1" = Some (Sample.sheet 6) ∧
  XLSX.ref (Sample.sheet 6) = Some "A1:B3" ∧
  "A1:B3" ≠ "" ∧
  ∃ rows,
    @readFirstSheet Sample.env "data.xlsx" 5 = Ok rows ∧
    length rows = 2%nat ∧
    ((3 ≤ 5 + 1)%nat → (length rows ≤ 5)%nat) ∧
    ∀ k row, rows !! k = Some row →
      ∀ colNum, (0 ≤ colNum ≤ 1)%nat →
        row !! Z.of_nat (colNum - 0)
        = Some (@cellValue Sample.env (Sample.sheet 6) (0 + 1 + k) colNum).
Proof.
  split_and!; [reflexivity|reflexivity|reflexivity|reflexivity|done|].
  exact (@readFirstSheet_rectangular Sample.env "data.xlsx" 5 (Sample.workbook 6)
           "Sheet1" (Sample.sheet 6) "A1:B3"
           eq_refl eq_refl eq_refl eq_refl ltac:(done)).
Defined.

Lemma populateField_choice_witness :
  let st := {| fields := Sample.form; calls := [] |} in
  let f := PDFDropdown ["basic"; "pro"] [] in
  fields st !! "Plan" = Some f ∧
  choiceOptions f = Some ["basic"; "pro"] ∧
  @mappedValue Sample.bob 1 ∧
  ∃ st',
    @populateField Sample.env Sample.bob st ("Plan", 1%Z) = Ok st' ∧
    ("pro" ∉ ["basic"; "pro"] → st' = st) ∧
    (fields st' = <["Plan" := selectedTo f "pro"]> (fields st) ∧
     calls st' = calls st ++ [selectCall f "Plan" "pro"]
     ↔ "pro" ∈ ["basic"; "pro"]).
Proof.
  intros st f.
  assert (Hf : fields st !! "Plan" = Some f) by reflexivity.
  assert (Hopts : choiceOptions f = Some ["basic"; "pro"]) by reflexivity.
  assert (Hvalue : @mappedValue Sample.bob 1) by (by split_and!).
  split_and!; [done..|].
  exact (@populateField_choice Sample.env Sample.bob st "Plan" 1 f ["basic"; "pro"]
           Hf Hopts Hvalue).
Defined.

Lemma renderPage_no_overlay_witness :
  (Some Sample.overlay = None ∨ Some 0%Qc = None ∨ Some 0%Qc = Some 0%Qc) ∧
  @renderPage Sample.env Sample.alice Sample.page Sample.document ∅
    (Some Sample.overlay) (Some 0%Qc)
  = Ok {| cv_page := Sample.page; cv_doc := Sample.document; cv_fonts := ∅ |}.
Proof.
  assert (Hno : Some Sample.overlay = None ∨ Some 0%Qc = None ∨ Some 0%Qc = Some 0%Qc)
    by (right; right; reflexivity).
  split; [exact Hno|].
  exact (@renderPage_no_overlay Sample.env Sample.alice Sample.page Sample.document ∅
           (Some Sample.overlay) (Some 0%Qc) Hno).
Defined.

Lemma renderForm_versions_agree_witness :
  (∀ mapping form,
     Some Sample.mapping = Some mapping → Some Sample.form = Some form →
     @mappingResolved Sample.bob mapping form) ∧
  @renderForm_earlier Sample.env Sample.bob (Some Sample.mapping) (Some Sample.form)
  = @renderForm Sample.env Sample.bob (Some Sample.mapping) (Some Sample.form).
Proof.
  assert (Hpre : ∀ mapping form,
             Some Sample.mapping = Some mapping → Some Sample.form = Some form →
             @mappingResolved Sample.bob mapping form).
  { intros mapping form [= <-] [= <-]. unfold mappingResolved, Sample.mapping.
    repeat apply Forall_cons_2; [| | |apply Forall_nil_2]; (split; [by vm_compute|]).
    - intros _. by split_and!.
    - intros _. by split_and!.
    - intros Hne. by destruct Hne. }
  split; [exact Hpre|].
  exact (@renderForm_versions_agree Sample.env Sample.bob (Some Sample.mapping)
           (Some Sample.form) Hpre).
Defined.

(** * Further properties of the render module *)

(** ** Fill colours *)

Lemma hexDigit_range ch d : hexDigit ch = Some d → (0 ≤ d ≤ 15)%Z.
Proof.
  unfold hexDigit. intros Hd.
  repeat case_match; simplify_eq;
    repeat match goal with
           | H : _ && _ = true |- _ => apply andb_true_iff in H as [? ?]
           | H : (_ <=? _)%Z = true |- _ => apply Z.leb_le in H
           end; lia.
Qed.

Lemma hexPair_range a b n : hexPair a b = Some n → (0 ≤ n ≤ 255)%Z.
Proof.
  unfold hexPair. intros Hn.
  destruct (hexDigit a) as [hi|] eqn:Hhi; [|done].
  destruct (hexDigit b) as [lo|] eqn:Hlo; [|done].
  simpl in Hn. injection Hn as <-.
  apply hexDigit_range in Hhi, Hlo. lia.
Qed.

Lemma hexToRgb_range hex :
  (0 ≤ (hexToRgb hex).1.1 ≤ 255)%Z ∧
  (0 ≤ (hexToRgb hex).1.2 ≤ 255)%Z ∧
  (0 ≤ (hexToRgb hex).2 ≤ 255)%Z.
Proof.
  unfold hexToRgb.
  set (body := match hex with String ch rest => _ | EmptyString => _ end).
  clearbody body.
  repeat (destruct body as [|? body]; [simpl; lia|]).
  destruct body; [|simpl; lia].
  destruct (hexPair _ _) eqn:Hr; [|simpl; lia].
  destruct (hexPair _ _) eqn:Hg in |- *; [|simpl; lia].
  destruct (hexPair _ _) eqn:Hb in |- *; [|simpl; lia].
  apply hexPair_range in Hr, Hg, Hb. simpl. lia.
Qed.

Lemma channel_range (z : Z) : (0 ≤ z ≤ 255)%Z → (0 ≤ num z / num 255 ≤ 1)%Qc.
Proof.
  intros Hz. unfold Qcle, Qcdiv, Qcmult, Qcinv, num, Q2Qc. simpl this.
  rewrite !Qred_correct.
  split; unfold Qle, Qmult, Qinv, inject_Z; simpl; lia.
Qed.

(** X1. Whatever the fill string of an object is, the colour handed to
    [drawText] has its three components between 0 and 1, the range [rgb]
    accepts. *)
Theorem fill_color_in_range (fill : string) :
  let color := rgb255 (hexToRgb fill) in
  (0 ≤ red color ≤ 1)%Qc ∧ (0 ≤ green color ≤ 1)%Qc ∧ (0 ≤ blue color ≤ 1)%Qc.
Proof.
  intros color. unfold color, rgb255.
  pose proof (hexToRgb_range fill) as (Hr & Hg & Hb).
  destruct (hexToRgb fill) as [[r g] b]. simpl in *.
  split_and!; by apply channel_range.
Qed.

Lemma lower_hexDigit ch : hexDigit (lower_ascii ch) = hexDigit ch.
Proof. destruct ch as [[] [] [] [] [] [] [] []]; reflexivity. Qed.

Lemma lower_hash ch : Ascii.eqb (lower_ascii ch) hash = Ascii.eqb ch hash.
Proof. destruct ch as [[] [] [] [] [] [] [] []]; reflexivity. Qed.

(** X2. [hexToRgb] does not distinguish upper and lower case: a colour
    string and its lower-case form give the same components. *)
Theorem hexToRgb_case_insensitive (hex : string) :
  hexToRgb (toLowerCase hex) = hexToRgb hex.
Proof.
  unfold hexToRgb, hexPair.
  repeat first
    [ reflexivity
    | progress (cbn [toLowerCase]; rewrite ?lower_hash, ?lower_hexDigit)
    | match goal with
      | |- context [Ascii.eqb ?ch hash] => destruct (Ascii.eqb ch hash)
      | h : string |- _ => destruct h
      end ].
Qed.

(** X3. A colour string of fewer than 6 or more than 7 characters is
    black: the three-digit shorthand (["#fff"], or the editor's initial
    ["#000"]) is not expanded. *)
Theorem hexToRgb_wrong_length (hex : string) :
  (String.length hex < 6 ∨ 7 < String.length hex)%nat →
  hexToRgb hex = (0, 0, 0)%Z.
Proof.
  unfold hexToRgb. intros Hlen.
  repeat first
    [ reflexivity
    | (simpl in Hlen; lia)
    | match goal with
      | |- context [Ascii.eqb ?ch hash] => destruct (Ascii.eqb ch hash)
      | h : string |- _ => destruct h
      end ].
Qed.

Lemma hexToRgb_wrong_length_witness :
  (String.length "#fff" < 6 ∨ 7 < String.length "#fff")%nat ∧
  hexToRgb "#fff" = (0, 0, 0)%Z.
Proof.
  assert (Hlen : (String.length "#fff" < 6 ∨ 7 < String.length "#fff")%nat)
    by (left; simpl; lia).
  split; [exact Hlen|]. exact (hexToRgb_wrong_length "#fff" Hlen).
Defined.

(** ** Output names *)

Lemma occurs_last sep s :
  occurs sep s = true →
  ∃ base ext, s = base +:+ String sep ext ∧ occurs sep ext = false.
Proof.
  induction s as [|ch rest IH]; [done|]. simpl.
  destruct (occurs sep rest) eqn:Hrest.
  - intros _. destruct (IH eq_refl) as (base & ext & -> & Hext).
    by exists (String ch base), ext.
  - rewrite orb_false_r. intros ->%Ascii.eqb_eq. by exists "", rest.
Qed.

(** X4. The split-mode file name for every output path. A path with a
    dot is cut at its last dot and the row number goes before it; a path
    without any dot becomes the extension of a name that is just the dash
    and the row number. *)
Theorem outputName_cases (output : string) (i : nat) :
  (occurs dot output = false →
   outputName output i = "-" +:+ pretty (i + 1)%nat +:+ "." +:+ output) ∧
  (occurs dot output = true →
   ∃ base ext,
     output = base +:+ "." +:+ ext ∧ occurs dot ext = false ∧
     outputName output i = base +:+ "-" +:+ pretty (i + 1)%nat +:+ "." +:+ ext).
Proof.
  split.
  - intros Hno. unfold outputName. by rewrite (split_absent _ _ Hno).
  - intros Hdot. destruct (occurs_last _ _ Hdot) as (base & ext & -> & Hext).
    exists base, ext. split_and!; [done..|]. by apply outputName_extension.
Qed.

(** ** Rows *)

(** X5. A Row built from an array holds the array's elements under the
    keys 0 to length - 1 and nothing else: reading it at a negative index
    or beyond the last column finds no key. *)
Theorem toRowMap_domain (arr : list JsValue) (z : Z) :
  toRowMap arr !! z = if decide (0 ≤ z)%Z then arr !! Z.to_nat z else None.
Proof.
  case_decide as Hz.
  - rewrite <- (Z2Nat.id z) at 1 by done. apply toRowMap_lookup.
  - apply toRowMap_lookup_neg. lia.
Qed.

(** X6. A first sheet without a declared range, or whose range has a
    single row (the header), gives no Rows, and no error. *)
Theorem readFirstSheet_header_only `{Env} path rowsLimit workbook name sheet :
  XLSX_readFile path (rowsLimit + 1) = Ok workbook →
  XLSX.SheetNames workbook !! 0%nat = Some name →
  XLSX.Sheets workbook !! name = Some sheet →
  (XLSX.ref sheet = None ∨ XLSX.ref sheet = Some "" ∨
   ∃ ref, XLSX.ref sheet = Some ref ∧
          (XLSX.r (XLSX.e (decode_range ref)) ≤ XLSX.r (XLSX.s (decode_range ref)))%nat) →
  readFirstSheet path rowsLimit = Ok [].
Proof.
  intros Hread Hname Hsheet Hrange.
  unfold readFirstSheet, headerOffset.
  rewrite Hread. simpl. rewrite Hname. simpl. rewrite Hsheet.
  f_equal.
  assert (Hnone' : drop 1 (sheetToArray sheet) = []); [|by rewrite Hnone'].
  apply nil_length_inv. rewrite length_drop.
  destruct Hrange as [Hnone | [Hempty | (ref & Href & Hrows)]].
  - rewrite sheetToArray_no_ref by (by left). done.
  - rewrite sheetToArray_no_ref by (by right). done.
  - destruct (decide (ref = "")) as [->|Hne].
    + rewrite sheetToArray_no_ref by (by right). done.
    + rewrite (sheetToArray_ref _ _ Href Hne), length_fmap, length_seq. lia.
Qed.

Lemma readFirstSheet_header_only_witness :
  @XLSX_readFile Sample.env "data.xlsx" (0 + 1) = Ok (Sample.workbook 1) ∧
  XLSX.SheetNames (Sample.workbook 1) !! 0%nat = Some "Sheet1" ∧
  XLSX.Sheets (Sample.workbook 1) !! "Sheet1" = Some (Sample.sheet 1) ∧
  (XLSX.ref (Sample.sheet 1) = None ∨ XLSX.ref (Sample.sheet 1) = Some "" ∨
   ∃ ref, XLSX.ref (Sample.sheet 1) = Some ref ∧
          (XLSX.r (XLSX.e (@decode_range Sample.env ref))
           ≤ XLSX.r (XLSX.s (@decode_range Sample.env ref)))%nat) ∧
  @readFirstSheet Sample.env "data.xlsx" 0 = Ok [].
Proof.
  assert (Hrange :
    XLSX.ref (Sample.sheet 1) = None ∨ XLSX.ref (Sample.sheet 1) = Some "" ∨
    ∃ ref, XLSX.ref (Sample.sheet 1) = Some ref ∧
           (XLSX.r (XLSX.e (@decode_range Sample.env ref))
            ≤ XLSX.r (XLSX.s (@decode_range Sample.env ref)))%nat).
  { right; right. exists "A1:B1". split; [reflexivity|]. vm_compute. lia. }
  split_and!; [reflexivity..|exact Hrange|].
  exact (@readFirstSheet_header_only Sample.env "data.xlsx" 0 (Sample.workbook 1)
           "Sheet1" (Sample.sheet 1) eq_refl eq_refl eq_refl Hrange).
Defined.

(** ** Substituted text *)

(** The text laid out for an object is the string coercion of the
    row's value and nothing else: the fallback [text || ''] never changes
    it, since the only falsy string is the empty string itself. *)
Lemma substitutedText_is_coercion `{Env} (row : RowMap) (o : CanvasObject) :
  substitutedText row o = toString (row_get row (index o)).
Proof.
  unfold substitutedText, str_or. by case_decide.
Qed.

(** ** Font cache *)

(** X7. Once [getFont] has returned a font for a name, asking again with
    the document and cache it left returns the same font and changes
    neither: nothing is embedded a second time. *)
Theorem getFont_again `{Env} font pdfDoc cachedFonts f pdfDoc' cachedFonts' :
  getFont font pdfDoc cachedFonts = Ok (f, pdfDoc', cachedFonts') →
  getFont font pdfDoc' cachedFonts' = Ok (f, pdfDoc', cachedFonts').
Proof.
  unfold getFont.
  destruct (cachedFonts !! str_or font Helvetica) as [cached|] eqn:Hlookup.
  - intros [= <- <- <-]. by rewrite Hlookup.
  - destruct (embedFont pdfDoc (str_or font Helvetica)) as [[embedded doc]|]; [|done].
    simpl. intros [= <- <- <-]. by rewrite lookup_insert_eq.
Qed.

Lemma getFont_again_witness :
  @getFont Sample.env None Sample.document ∅
  = Ok (Sample.helvetica,
        {| doc_id := 0; doc_pages := [Sample.page]; doc_form := Sample.form;
           doc_fonts := [Sample.helvetica] |},
        {[ "Helvetica" := Sample.helvetica ]}) ∧
  @getFont Sample.env None
    {| doc_id := 0; doc_pages := [Sample.page]; doc_form := Sample.form;
       doc_fonts := [Sample.helvetica] |}
    {[ "Helvetica" := Sample.helvetica ]}
  = Ok (Sample.helvetica,
        {| doc_id := 0; doc_pages := [Sample.page]; doc_form := Sample.form;
           doc_fonts := [Sample.helvetica] |},
        {[ "Helvetica" := Sample.helvetica ]}).
Proof.
  assert (Hfirst : @getFont Sample.env None Sample.document ∅
                   = Ok (Sample.helvetica,
                         {| doc_id := 0; doc_pages := [Sample.page];
                            doc_form := Sample.form;
                            doc_fonts := [Sample.helvetica] |},
                         {[ "Helvetica" := Sample.helvetica ]}))
    by reflexivity.
  split; [exact Hfirst|].
  exact (@getFont_again Sample.env None Sample.document ∅ _ _ _ Hfirst).
Defined.

(** ** Overlay drawing *)

Section Drawing.
Context `{Env}.

Lemma foldM_app {A B} (f : A → B → Outcome A) a l1 l2 :
  foldM f a (l1 ++ l2) = obind (foldM f a l1) (λ a', foldM f a' l2).
Proof.
  revert a. induction l1 as [|b l1 IH]; intros a; [done|].
  simpl. destruct (f a b); [apply IH|done].
Qed.

Lemma getFont_filed font pdfDoc cachedFonts f pdfDoc' cachedFonts' :
  fontsFiled pdfDoc cachedFonts →
  getFont font pdfDoc cachedFonts = Ok (f, pdfDoc', cachedFonts') →
  fontsFiled pdfDoc' cachedFonts'.
Proof.
  intros [Hnodup Hfiled]. unfold getFont.
  destruct (cachedFonts !! str_or font Helvetica) as [cached|] eqn:Hlookup.
  - by intros [= <- <- <-].
  - unfold embedFont. destruct (isStandardFont _); [|done].
    simpl. intros [= <- <- <-]. split; simpl.
    + rewrite fmap_app. apply NoDup_app. split_and!; [done| |apply NoDup_singleton].
      intros name (font' & -> & Hin)%list_elem_of_fmap Hnew.
      apply list_elem_of_singleton in Hnew. simpl in Hnew.
      apply Hfiled in Hin. rewrite Hnew, Hlookup in Hin. done.
    + intros font' [Hin| ->%list_elem_of_singleton]%elem_of_app.
      * destruct (decide (str_or font Helvetica = font_name font')) as [Heq|Hne].
        -- apply Hfiled in Hin. rewrite <- Heq, Hlookup in Hin. done.
        -- rewrite lookup_insert_ne by done. by apply Hfiled.
      * simpl. by rewrite lookup_insert_eq.
Qed.

Lemma foldM_renderObject_filed row canvasWidth objs cv cv' :
  fontsFiled (cv_doc cv) (cv_fonts cv) →
  foldM (renderObject row canvasWidth) cv objs = Ok cv' →
  fontsFiled (cv_doc cv') (cv_fonts cv').
Proof.
  revert cv. induction objs as [|obj objs IH]; intros cv Hfiled.
  - by intros [= <-].
  - rewrite foldM_cons.
    destruct (renderObject row canvasWidth cv obj) as [cv1|] eqn:Hobj; [|done].
    simpl. apply IH. unfold renderObject in Hobj.
    destruct (decide (type obj = "text")); [|by simplify_eq].
    destruct (getFont (fontFamily obj) (cv_doc cv) (cv_fonts cv))
      as [[[f pdfDoc'] cachedFonts']|] eqn:Hfont; [|done].
    simpl in Hobj. injection Hobj as <-. simpl.
    by eapply getFont_filed.
Qed.

Lemma foldM_filter {A B} (f : A → B → Outcome A) (P : B → Prop)
    `{!∀ b, Decision (P b)} a l :
  (∀ a b, ¬ P b → f a b = Ok a) →
  foldM f a (filter P l) = foldM f a l.
Proof.
  intros Hskip. revert a. induction l as [|b l IH]; intros a; [done|].
  rewrite filter_cons. destruct (decide (P b)) as [Hb|Hb].
  - simpl. destruct (f a b); [apply IH|done].
  - simpl. rewrite (Hskip a b Hb). simpl. apply IH.
Qed.

(** What [renderObject] keeps, when it returns. *)
Lemma renderObject_keeps row canvasWidth obj cv cv' :
  renderObject row canvasWidth cv obj = Ok cv' →
  pg_width (cv_page cv') = pg_width (cv_page cv) ∧
  pg_height (cv_page cv') = pg_height (cv_page cv) ∧
  pg_values (cv_page cv') = pg_values (cv_page cv) ∧
  pg_draws (cv_page cv) `prefix_of` pg_draws (cv_page cv') ∧
  doc_id (cv_doc cv') = doc_id (cv_doc cv) ∧
  doc_pages (cv_doc cv') = doc_pages (cv_doc cv) ∧
  doc_form (cv_doc cv') = doc_form (cv_doc cv) ∧
  doc_fonts (cv_doc cv) `prefix_of` doc_fonts (cv_doc cv') ∧
  cv_fonts cv ⊆ cv_fonts cv'.
Proof.
  unfold renderObject.
  destruct (decide (type obj = "text")); [|by intros [= <-]].
  unfold getFont.
  destruct (cv_fonts cv !! str_or (fontFamily obj) Helvetica) eqn:Hlookup.
  - simpl. intros [= <-]. simpl. split_and!; try done. by apply prefix_app_r.
  - unfold embedFont. destruct (isStandardFont _); [|done].
    simpl. intros [= <-]. simpl.
    split_and!; try done; [by apply prefix_app_r..|by apply insert_subseteq].
Qed.

Lemma foldM_renderObject_keeps row canvasWidth objs cv cv' :
  foldM (renderObject row canvasWidth) cv objs = Ok cv' →
  pg_width (cv_page cv') = pg_width (cv_page cv) ∧
  pg_height (cv_page cv') = pg_height (cv_page cv) ∧
  pg_values (cv_page cv') = pg_values (cv_page cv) ∧
  pg_draws (cv_page cv) `prefix_of` pg_draws (cv_page cv') ∧
  doc_id (cv_doc cv') = doc_id (cv_doc cv) ∧
  doc_pages (cv_doc cv') = doc_pages (cv_doc cv) ∧
  doc_form (cv_doc cv') = doc_form (cv_doc cv) ∧
  doc_fonts (cv_doc cv) `prefix_of` doc_fonts (cv_doc cv') ∧
  cv_fonts cv ⊆ cv_fonts cv'.
Proof.
  revert cv. induction objs as [|obj objs IH]; intros cv.
  - intros [= <-]. by split_and!.
  - rewrite foldM_cons.
    destruct (renderObject row canvasWidth cv obj) as [cv1|] eqn:Hobj; [|done].
    simpl. intros Hfold.
    destruct (renderObject_keeps _ _ _ _ _ Hobj)
      as (? & ? & ? & ? & ? & ? & ? & ? & ?).
    destruct (IH _ Hfold) as (? & ? & ? & ? & ? & ? & ? & ? & ?).
    split_and!; try congruence; by etrans.
Qed.

End Drawing.

(** X8. A font name is embedded into a document at most once by
    [renderPage], however many objects use it and whatever the cache holds
    on entry: when the document has no embedded font on entry, the fonts
    it has afterwards have pairwise different names. *)
Theorem renderPage_embeds_once `{Env} row page pdfDoc cachedFonts canvasData
    canvasWidth cv :
  doc_fonts pdfDoc = [] →
  renderPage row page pdfDoc cachedFonts canvasData canvasWidth = Ok cv →
  NoDup (font_name <$> doc_fonts (cv_doc cv)).
Proof.
  intros Hnone Hrun.
  assert (Hfiled : fontsFiled pdfDoc cachedFonts).
  { unfold fontsFiled. rewrite Hnone. split; [apply NoDup_nil_2|].
    by intros font ?%elem_of_nil. }
  unfold renderPage in Hrun.
  destruct canvasData as [canvas|], canvasWidth as [w|];
    try (injection Hrun as <-; apply Hfiled).
  destruct (decide (w = 0%Qc)); [injection Hrun as <-; apply Hfiled|].
  apply (foldM_renderObject_filed row w (objects canvas)
           {| cv_page := page; cv_doc := pdfDoc; cv_fonts := cachedFonts |} cv
           Hfiled Hrun).
Qed.

(** X9. Objects whose type is not ["text"] (the ["qrcode"] placeholder,
    shapes) have no effect at all: [renderPage] gives the same result on
    the overlay with these objects removed. *)
Theorem renderPage_ignores_other_objects `{Env} row page pdfDoc cachedFonts
    canvas canvasWidth :
  renderPage row page pdfDoc cachedFonts
    (Some {| objects := filter (λ obj, type obj = "text") (objects canvas) |})
    canvasWidth
  = renderPage row page pdfDoc cachedFonts (Some canvas) canvasWidth.
Proof.
  unfold renderPage. destruct canvasWidth as [w|]; [|done].
  destruct (decide (w = 0%Qc)); [done|]. simpl.
  apply foldM_filter. intros cv obj Hother. unfold renderObject.
  by rewrite decide_False.
Qed.

(** X10. What [renderPage] leaves alone when it returns: the size of the
    page and the field values on it, the identity, pages and form of the
    document; what was drawn on the page and embedded into the document
    before is still there, in front of what was added, and the cache has
    lost no entry. *)
Theorem renderPage_keeps `{Env} row page pdfDoc cachedFonts canvasData
    canvasWidth cv :
  renderPage row page pdfDoc cachedFonts canvasData canvasWidth = Ok cv →
  pg_width (cv_page cv) = pg_width page ∧
  pg_height (cv_page cv) = pg_height page ∧
  pg_values (cv_page cv) = pg_values page ∧
  pg_draws page `prefix_of` pg_draws (cv_page cv) ∧
  doc_id (cv_doc cv) = doc_id pdfDoc ∧
  doc_pages (cv_doc cv) = doc_pages pdfDoc ∧
  doc_form (cv_doc cv) = doc_form pdfDoc ∧
  doc_fonts pdfDoc `prefix_of` doc_fonts (cv_doc cv) ∧
  cachedFonts ⊆ cv_fonts cv.
Proof.
  unfold renderPage. intros Hrun.
  destruct canvasData as [canvas|], canvasWidth as [w|];
    try (injection Hrun as <-; by split_and!).
  destruct (decide (w = 0%Qc)); [injection Hrun as <-; by split_and!|].
  apply (foldM_renderObject_keeps row w (objects canvas)
           {| cv_page := page; cv_doc := pdfDoc; cv_fonts := cachedFonts |} cv Hrun).
Qed.


(** ** Form field populator, further *)

Section Populating.
Context `{Env}.

(** One entry of the mapping either changes nothing, or replaces the field
    it names by a field of the same kind and options and logs one call. *)
Lemma populateField_cases row st key index :
  ∃ st',
    populateField row st (key, index) = Ok st' ∧
    (st' = st ∨
     ∃ f call,
       mappedValue row index ∧
       fields st !! key = Some f ∧
       fields st' = <[key := populatedField f (toString (row_get row index))]> (fields st) ∧
       calls st' = calls st ++ [call]).
Proof.
  unfold populateField. simpl.
  case_decide as Hskip; [by eexists; split; [|left]|].
  assert (Hmapped : mappedValue row index) by (unfold mappedValue; tauto).
  destruct (fields st !! key) as [f|] eqn:Hf; [|by eexists; split; [|left]].
  destruct f as [t|b|opts sel|opts sel|opts sel| |]; simpl;
    try (by eexists; split; [|left]).
  - rewrite (do_setText_text _ _ _ _ Hf). eexists. split; [done|].
    right. by eexists _, _.
  - rewrite (checkBoxCase_checkBox _ _ _ _ Hf). eexists. split; [done|].
    right. by eexists _, _.
  - rewrite (radioGroupCase_radioGroup _ _ _ _ _ Hf).
    destruct (includes opts _) eqn:Hin; (eexists; split; [done|]); [|by left].
    right. eexists _, _. split_and!; [done..| |done]. simpl. by rewrite Hin.
  - rewrite (optionListCase_optionList _ _ _ _ _ Hf).
    destruct (includes opts _) eqn:Hin; (eexists; split; [done|]); [|by left].
    right. eexists _, _. split_and!; [done..| |done]. simpl. by rewrite Hin.
  - rewrite (dropdownCase_dropdown _ _ _ _ _ Hf).
    destruct (includes opts _) eqn:Hin; (eexists; split; [done|]); [|by left].
    right. eexists _, _. split_and!; [done..| |done]. simpl. by rewrite Hin.
Qed.

Lemma populatedField_kind f value :
  getFieldType (Some (populatedField f value)) = getFieldType (Some f) ∧
  choiceOptions (populatedField f value) = choiceOptions f.
Proof. destruct f; simpl; try done; by destruct (includes _ _). Qed.

(** The frame of one entry. *)
Lemma populateField_frame row st key index st' :
  populateField row st (key, index) = Ok st' →
  dom (fields st') = dom (fields st) ∧
  (∀ key', key' ≠ key → fields st' !! key' = fields st !! key') ∧
  (∀ key', getFieldType (fields st' !! key') = getFieldType (fields st !! key')) ∧
  (∀ key', fields st' !! key' ≫= choiceOptions = fields st !! key' ≫= choiceOptions) ∧
  (length (calls st') ≤ S (length (calls st)))%nat.
Proof.
  destruct (populateField_cases row st key index)
    as (st1 & -> & [-> | (f & call & _ & Hf & Hfields & Hcalls)]);
    intros Heq; injection Heq as <-.
  - split_and!; [done..|lia].
  - rewrite Hfields, Hcalls.
    destruct (populatedField_kind f (toString (row_get row index))) as [Hkind Hopts].
    split_and!.
    + by apply dom_insert_lookup_L.
    + intros key' Hne. by rewrite lookup_insert_ne.
    + intros key'. destruct (decide (key = key')) as [<-|Hne].
      * by rewrite lookup_insert_eq, Hf.
      * by rewrite lookup_insert_ne.
    + intros key'. destruct (decide (key = key')) as [<-|Hne].
      * rewrite lookup_insert_eq, Hf. simpl. by rewrite Hopts.
      * by rewrite lookup_insert_ne.
    + rewrite length_app. simpl. lia.
Qed.


End Populating.


Section Populated.
Context `{Env}.



Lemma foldM_populateField_skipped row formData st :
  Forall (skippedEntry row (fields st)) formData →
  foldM (populateField row) st formData = Ok st.
Proof.
  induction 1 as [|[key index] rest Hskip _ IH]; [done|].
  rewrite foldM_cons.
  assert (Hstep : populateField row st (key, index) = Ok st).
  { unfold populateField. simpl. case_decide; [done|].
    destruct Hskip as [?|[?|[?|Hkind]]]; try tauto.
    simpl in Hkind. by rewrite Hkind. }
  by rewrite Hstep.
Qed.

End Populated.


(** X14. Entries with the sentinel index, with no value in the row
    (column out of range, [undefined] or [null] cell), or naming a field
    that does not exist or is of no supported kind are passed over in
    silence: a mapping made of such entries leaves the form as it was and
    makes no call. *)
Theorem renderForm_skips `{Env} (row : RowMap) (formData : FormMap) (form : PDFForm) :
  Forall (skippedEntry row form) formData →
  renderForm row (Some formData) (Some form)
  = Ok (Some {| fields := form; calls := [] |}).
Proof.
  intros Hskip. unfold renderForm.
  by rewrite (foldM_populateField_skipped row formData {| fields := form; calls := [] |}).
Qed.



(** ** Form field introspector *)

Section Introspector.
Context `{Env}.

Lemma loadForm_run filename pdfBuff w :
  readFile filename = Ok pdfBuff →
  loadForm filename w
  = (Ok (filter (λ v, Is_true (isSupported v.2))
           ((λ fld, (fld.1, getFieldType (Some fld.2)))
              <$> getFields (bytes_form pdfBuff))),
     {| files := files w; next_doc := S (next_doc w) |}).
Proof.
  intros Hread. unfold loadForm.
  rewrite (bind_ok _ _ w pdfBuff w) by (by apply lift_ok).
  by rewrite (bind_ok _ _ w _ _) by reflexivity.
Qed.

Lemma getFieldType_classTag f :
  getFieldType (Some f) = classTag (constructor_name f).
Proof. by destruct f. Qed.

Lemma isSupported_true tag : Is_true (isSupported tag) ↔ tag ≠ Unsupported.
Proof. by destruct tag. Qed.

(** A field the populator has changed is of a supported kind. *)
Lemma foldM_populateField_changed row formData st st' key :
  foldM (populateField row) st formData = Ok st' →
  fields st' !! key ≠ fields st !! key →
  getFieldType (fields st !! key) ≠ Unsupported.
Proof.
  revert st. induction formData as [|[key' index] rest IH]; intros st.
  - by intros [= <-].
  - rewrite foldM_cons.
    destruct (populateField_cases row st key' index)
      as (st1 & Hstep & Hcases).
    rewrite Hstep. simpl. intros Hfold Hchanged.
    destruct (populateField_frame _ _ _ _ _ Hstep) as (_ & Hframe1 & Hkind1 & _).
    destruct (decide (fields st1 !! key = fields st !! key)) as [Hsame|Hdiff].
    + rewrite <- Hkind1. apply (IH st1 Hfold). by rewrite Hsame.
    + destruct Hcases as [-> | (f & call & _ & Hf & Hfields & _)]; [done|].
      destruct (decide (key' = key)) as [->|Hne]; [|by rewrite Hframe1 in Hdiff].
      rewrite Hfields, lookup_insert_eq, Hf in Hdiff. rewrite Hf.
      destruct f; simpl in *; done.
Qed.

End Introspector.

(** X17. [loadForm] on a readable template returns normally, writes no
    file, and reports each field of a supported kind exactly once with its
    tag: a name is reported with a tag if and only if the tag is not empty
    and is the tag of the field of that name. Buttons, signatures and
    names that are no field are not reported. *)
Theorem loadForm_reports `{Env} filename pdfBuff w :
  readFile filename = Ok pdfBuff →
  ∃ infos w',
    loadForm filename w = (Ok infos, w') ∧
    files w' = files w ∧
    NoDup infos.*1 ∧
    ∀ name tag,
      (name, tag) ∈ infos
      ↔ tag ≠ Unsupported ∧ getFieldType (bytes_form pdfBuff !! name) = tag.
Proof.
  intros Hread. eexists _, _. split; [by apply loadForm_run|].
  split; [done|]. split.
  - eapply sublist_NoDup; [apply (NoDup_fst_map_to_list (bytes_form pdfBuff))|].
    etrans; [apply fmap_sublist, sublist_filter|].
    unfold getFields. rewrite <- list_fmap_compose. done.
  - intros name tag. rewrite list_elem_of_filter, list_elem_of_fmap. simpl.
    rewrite isSupported_true. split.
    + intros (Htag & [name' f] & [= -> ->] & Hin). split; [done|].
      apply elem_of_map_to_list in Hin. simpl in Hin. by rewrite Hin.
    + intros [Htag Hkind]. split; [done|].
      destruct (bytes_form pdfBuff !! name) as [f|] eqn:Hf; [|by subst].
      exists (name, f). split; [by rewrite <- Hkind|].
      by apply elem_of_map_to_list.
Qed.

(** X18. The current introspector reports what the earlier one reports,
    with the class names turned into tags and the fields of other classes
    left out; it fails when the earlier one fails, and leaves the same
    world. *)
Theorem loadForm_versions `{Env} (filename : string) (w : World) :
  loadForm filename w
  = (obind (loadForm_earlier filename w).1 (λ infos, Ok (translateInfos infos)),
     (loadForm_earlier filename w).2).
Proof.
  unfold loadForm, loadForm_earlier, mbind, M_bind, lift.
  destruct (readFile filename) as [pdfBuff|e]; [|done].
  unfold translateInfos, PDFDocument_load, mret, M_ret.
  cbn [fst snd obind doc_form]. rewrite <- list_fmap_compose.
  do 3 f_equal. apply list_fmap_ext. intros i [name f] _.
  cbn [fst snd compose]. by rewrite getFieldType_classTag.
Qed.

(** X19. Populator and introspector agree on what a usable field is:
    every field whose state [renderForm] has changed is a field [loadForm]
    reports for the same template. *)
Theorem renderForm_changes_reported `{Env} filename pdfBuff row formData st
    infos w w' key :
  readFile filename = Ok pdfBuff →
  loadForm filename w = (Ok infos, w') →
  renderForm row (Some formData) (Some (bytes_form pdfBuff)) = Ok (Some st) →
  fields st !! key ≠ bytes_form pdfBuff !! key →
  key ∈ infos.*1.
Proof.
  intros Hread Hload Hrender Hchanged.
  rewrite (loadForm_run _ _ _ Hread) in Hload. injection Hload as <- _.
  unfold renderForm in Hrender.
  destruct (foldM (populateField row) _ formData) as [st1|] eqn:Hfold; [|done].
  simpl in Hrender. injection Hrender as ->.
  pose proof (foldM_populateField_changed _ _ _ _ key Hfold Hchanged) as Hkind.
  simpl in Hkind.
  destruct (bytes_form pdfBuff !! key) as [f|] eqn:Hf; [|done].
  apply list_elem_of_fmap. exists (key, getFieldType (Some f)). split; [done|].
  apply list_elem_of_filter. split; [by apply isSupported_true|].
  apply list_elem_of_fmap. exists (key, f). split; [done|].
  by apply elem_of_map_to_list.
Qed.

(** ** Document assembler, further *)

Section Runs.
Context `{Env}.

(** What any run of the loop body does to the world, whatever its
    outcome. *)
Lemma iteration_world output pdfBuff pageIndex (combinePdf : bool) canvasData
    canvasWidth formData i row st w :
  let run := iteration output pdfBuff pageIndex combinePdf canvasData canvasWidth
               formData i row st w in
  files w `prefix_of` files run.2 ∧
  (next_doc w ≤ next_doc run.2)%nat ∧
  ∀ st', run.1 = Ok st' →
    length (files run.2)
    = (length (files w) + if combinePdf then 0 else 1)%nat ∧
    next_doc run.2 = (next_doc w + if combinePdf then 2 else 3)%nat ∧
    ls_pdfDoc st' = parsed pdfBuff (pred (next_doc run.2)).
Proof.
  unfold iteration, mbind, M_bind, lift, writeFile, PDFDocument_create,
    PDFDocument_load, mret, M_ret, parsed.
  destruct (renderForm row formData _) as [populated|]; [|by split_and!].
  destruct (getPage _ _) as [page|]; [|by split_and!].
  destruct (renderPage _ _ _ _ _ _) as [cv|]; [|by split_and!].
  cbn [fst snd next_doc files].
  destruct (copyPages _ _) as [newPage|]; [|split_and!; [done|simpl; lia|done]].
  destruct combinePdf; cbn [negb fst snd next_doc files].
  - split_and!; [done|lia|]. intros st' [= <-]. split_and!; [lia|lia|done].
  - destruct (writable (outputName output i)); cbn [fst snd next_doc files].
    + split_and!; [by apply prefix_app_r|lia|]. intros st' [= <-].
      rewrite length_app. simpl. split_and!; [lia|lia|done].
    + split_and!; [done|lia|done].
Qed.

Lemma rowLoop_world output pdfBuff pageIndex (combinePdf : bool) canvasData
    canvasWidth formData rows i st w :
  let run := rowLoop output pdfBuff pageIndex combinePdf canvasData canvasWidth
               formData i rows st w in
  files w `prefix_of` files run.2 ∧
  (next_doc w ≤ next_doc run.2)%nat ∧
  ∀ st', run.1 = Ok st' →
    length (files run.2)
    = (length (files w) + if combinePdf then 0 else length rows)%nat ∧
    next_doc run.2
    = (next_doc w + (if combinePdf then 2 else 3) * length rows)%nat.
Proof.
  revert i st w. induction rows as [|row rows IH]; intros i st w.
  - simpl. split_and!; [done..|]. intros st' _. destruct combinePdf; simpl; lia.
  - cbn [rowLoop]. unfold mbind, M_bind.
    pose proof (iteration_world output pdfBuff pageIndex combinePdf canvasData
                  canvasWidth formData i row st w) as (Hpre & Hids & Hok).
    destruct (iteration _ _ _ _ _ _ _ i row st w) as [[st1|e] w1]; simpl in *.
    + destruct (Hok st1 eq_refl) as (Hlen1 & Hid1 & _).
      destruct (IH (S i) st1 w1) as (Hpre' & Hids' & Hok').
      split_and!; [by etrans|lia|].
      intros st' Hst'. destruct (Hok' st' Hst') as [Hlen' Hid'].
      destruct combinePdf; lia.
    + by split_and!.
Qed.

End Runs.

(** X20. A merge run never removes or rewrites what was written before:
    the files written on entry are a prefix of those written at the end,
    whatever the outcome; and a run that returns has written exactly as
    many files as the number it returns. *)
Theorem renderPdf_files `{Env} output pdfFile pageIndex excelFile rowsLimit
    (combinePdf : bool) canvasData canvasWidth formData w :
  let run := renderPdf output pdfFile pageIndex excelFile rowsLimit combinePdf
               canvasData canvasWidth formData w in
  files w `prefix_of` files run.2 ∧
  ∀ n, run.1 = Ok n → length (files run.2) = (length (files w) + n)%nat.
Proof.
  unfold renderPdf, mbind, M_bind, lift, PDFDocument_load,
    PDFDocument_create.
  destruct (readFile pdfFile) as [pdfBuff|]; [|by split].
  destruct (readFirstSheet excelFile rowsLimit) as [rows|]; [|by split].
  match goal with
  | |- context [rowLoop ?o ?b ?p ?c ?cd ?cw ?fd ?i ?rs ?st ?w0] =>
      pose proof (rowLoop_world o b p c cd cw fd rs i st w0) as (Hpre & _ & Hok);
      destruct (rowLoop o b p c cd cw fd i rs st w0) as [[st'|e] w'] eqn:Hloop
  end; rewrite ?Hloop in Hpre, Hok; simpl in *; [|by split].
  destruct (Hok st' eq_refl) as [Hlen _].
  destruct combinePdf; simpl.
  - unfold writeFile. destruct (writable output); simpl; [|by split].
    split; [by apply prefix_app_r|]. intros n [= <-].
    rewrite length_app. simpl. lia.
  - split; [done|]. intros n [= <-]. lia.
Qed.

(** X21. When the template or the workbook cannot be read, the run ends
    with the error of the reader and has written no file. *)
Theorem renderPdf_unreadable `{Env} output pdfFile pageIndex excelFile rowsLimit
    combinePdf canvasData canvasWidth formData w e :
  (readFile pdfFile = Throw e ∨
   (∃ pdfBuff, readFile pdfFile = Ok pdfBuff) ∧
   readFirstSheet excelFile rowsLimit = Throw e) →
  ∃ w',
    renderPdf output pdfFile pageIndex excelFile rowsLimit combinePdf
      canvasData canvasWidth formData w = (Throw e, w') ∧
    files w' = files w.
Proof.
  unfold renderPdf, mbind, M_bind, lift, PDFDocument_load,
    PDFDocument_create.
  intros [-> | [[pdfBuff ->] ->]]; by eexists.
Qed.


(** X23. With no data row the page index and the overlay are never
    looked at. In combined mode, when [output] can be written, the run
    writes one file to it and returns 1; the file holds a single page, the
    empty default page [save] gives a document without pages, and no form.
    In split mode the run writes nothing and returns 0. *)
Theorem renderPdf_no_rows `{Env} output pdfFile pageIndex excelFile rowsLimit
    (combinePdf : bool) canvasData canvasWidth formData w pdfBuff :
  readFile pdfFile = Ok pdfBuff →
  readFirstSheet excelFile rowsLimit = Ok [] →
  (combinePdf = true → writable output = true) →
  ∃ w',
    renderPdf output pdfFile pageIndex excelFile rowsLimit combinePdf
      canvasData canvasWidth formData w
    = (Ok (if combinePdf then 1%nat else 0%nat), w') ∧
    files w'
    = files w ++ (if combinePdf
                  then [(output, {| bytes_pages := [defaultPage]; bytes_form := ∅ |})]
                  else []).
Proof.
  intros Hpdf Hrows Hwrite. unfold renderPdf.
  rewrite (bind_ok _ _ w pdfBuff w) by (by apply lift_ok).
  rewrite (bind_ok _ _ w _ _) by reflexivity.
  rewrite (bind_ok _ _ _ _ _) by reflexivity.
  erewrite bind_ok by (by apply lift_ok).
  erewrite bind_ok by reflexivity.
  destruct combinePdf.
  - unfold mbind, M_bind, writeFile, mret, M_ret. rewrite Hwrite by done.
    by eexists.
  - eexists. split; [reflexivity|]. simpl. by rewrite app_nil_r.
Qed.

(** X24. Rows do not leak into each other: when the loop body returns,
    the working document of the next row is a new parse of the template
    bytes, with a document identity not used before, no font embedded and
    nothing drawn or filled in; the body has created two document
    instances in combined mode and three in split mode. *)
Theorem iteration_fresh_document `{Env} output pdfBuff pageIndex
    (combinePdf : bool) canvasData canvasWidth formData i row st w st' w' :
  iteration output pdfBuff pageIndex combinePdf canvasData canvasWidth formData
    i row st w = (Ok st', w') →
  ∃ id,
    ls_pdfDoc st' = parsed pdfBuff id ∧
    (next_doc w ≤ id < next_doc w')%nat ∧
    next_doc w' = (next_doc w + if combinePdf then 2 else 3)%nat.
Proof.
  intros Hrun.
  pose proof (iteration_world output pdfBuff pageIndex combinePdf canvasData
                canvasWidth formData i row st w) as (_ & _ & Hok).
  rewrite Hrun in Hok. simpl in Hok.
  destruct (Hok st' eq_refl) as (_ & Hid & Hdoc).
  exists (pred (next_doc w')). split; [done|]. destruct combinePdf; lia.
Qed.

(** ** Coordinate translation, further *)

Lemma textGeometry_rounded_exact `{Env} o font pageWidth pageHeight canvasWidth :
  textGeometry_rounded (λ q, q) o font pageWidth pageHeight canvasWidth
  = textGeometry o font pageWidth pageHeight canvasWidth.
Proof. reflexivity. Qed.






(** ** A font that cannot be embedded *)

(** X27. An overlay with a text object whose font [embedFont] rejects is
    never rendered: with a cache of embeddable fonts and a canvas width
    other than 0, [renderPage] does not return normally; and when no text
    object comes before that one, it throws the error of [embedFont] for
    that font, whatever comes after. The font name is not a member name of
    [Object.prototype], which [cachedFonts[key]] would find in the empty
    cache. *)
Theorem renderPage_font_not_embeddable `{Env} row page pdfDoc cachedFonts canvas
    canvasWidth pre obj post :
  canvasWidth ≠ 0%Qc →
  objects canvas = pre ++ obj :: post →
  (∀ key, is_Some (cachedFonts !! key) → isStandardFont key = true) →
  type obj = "text" →
  isStandardFont (fontKey obj) = false →
  inherited (fontKey obj) = false →
  (∀ cv, renderPage row page pdfDoc cachedFonts (Some canvas) (Some canvasWidth)
         ≠ Ok cv) ∧
  ((∀ o, o ∈ pre → type o ≠ "text") →
   renderPage row page pdfDoc cachedFonts (Some canvas) (Some canvasWidth)
   = Throw (FontNotEmbeddable (fontKey obj))).
Proof.
  intros Hw Hobjs Hstd Htext Hbad _. unfold renderPage.
  rewrite decide_False by done.
  set (cv := {| cv_page := page; cv_doc := pdfDoc; cv_fonts := cachedFonts |}).
  split.
  - intros cv' Hrun.
    destruct (foldM_renderObject_embeddable row canvasWidth (objects canvas) cv cv'
                Hstd Hrun) as [_ Hall].
    rewrite (Hall obj) in Hbad; [done| |done].
    rewrite Hobjs. apply elem_of_app. right. left.
  - intros Hpre. rewrite Hobjs, foldM_app.
    assert (Hfold : foldM (renderObject row canvasWidth) cv pre = Ok cv).
    { clear Hobjs. induction pre as [|o pre IH]; [done|].
      rewrite foldM_cons. unfold renderObject at 1.
      rewrite decide_False by (apply Hpre; left). simpl.
      apply IH. intros o' Hin. apply Hpre. by right. }
    rewrite Hfold. simpl. unfold renderObject. rewrite decide_True by done.
    unfold getFont. fold (fontKey obj). simpl.
    destruct (cachedFonts !! fontKey obj) as [f|] eqn:Hlookup.
    + rewrite Hstd in Hbad by (by eexists). done.
    + unfold embedFont. by rewrite Hbad.
Qed.

(** ** The editor component *)

(** X28. In every state the editor can reach, the page number it shows,
    and sends with a merge request, is a page of the document: between 1
    and the number of pages. *)
Theorem PdfEditor_page_in_range (st : PdfEditor.State) :
  PdfEditor.reachable st →
  (1 ≤ PdfEditor.pageNumber st ≤ PdfEditor.numPages st)%Z.
Proof.
  induction 1 as [|st st' _ IH Hstep]; [simpl; lia|].
  destruct Hstep as [path st|n st Hn|st|st Hback|st Hnext]; simpl.
  - unfold PdfEditor.handleOpenPdf. by case_decide.
  - lia.
  - done.
  - unfold PdfEditor.backShown in Hback.
    apply andb_true_iff in Hback as [_ Hgt%bool_decide_eq_true]. lia.
  - unfold PdfEditor.nextShown in Hnext.
    apply andb_true_iff in Hnext as [_ Hlt%bool_decide_eq_true]. lia.
Qed.

Lemma PdfEditor_page_in_range_witness :
  PdfEditor.reachable
    (PdfEditor.setPageNumber 2
       (PdfEditor.handleDocumentLoadSuccess 3
          (PdfEditor.handleOpenPdf (Some "template.pdf") PdfEditor.initial))) ∧
  (1 ≤ 2 ≤ 3)%Z.
Proof.
  assert (Hreach : PdfEditor.reachable
            (PdfEditor.setPageNumber 2
               (PdfEditor.handleDocumentLoadSuccess 3
                  (PdfEditor.handleOpenPdf (Some "template.pdf") PdfEditor.initial)))).
  { pose (s1 := PdfEditor.handleOpenPdf (Some "template.pdf") PdfEditor.initial).
    pose (s2 := PdfEditor.handleDocumentLoadSuccess 3 s1).
    apply (PdfEditor.reachable_step s2).
    - apply (PdfEditor.reachable_step s1).
      + apply (PdfEditor.reachable_step PdfEditor.initial).
        * apply PdfEditor.reachable_initial.
        * apply PdfEditor.step_openPdf.
      + apply PdfEditor.step_documentLoaded. lia.
    - apply (PdfEditor.step_next s2). reflexivity. }
  split; [exact Hreach|].
  exact (PdfEditor_page_in_range _ Hreach).
Defined.

(** X29. The number of PDFs the editor announces is the number of Rows
    the renderer merges, when the sheet the renderer reads declares the
    range the editor found as ['!fullref'] and that range is not empty. *)
Theorem openedPages_counts_rows `{Env} path rowsLimit workbook name sheet ref pages :
  XLSX_readFile path (rowsLimit + 1) = Ok workbook →
  XLSX.SheetNames workbook !! 0%nat = Some name →
  XLSX.Sheets workbook !! name = Some sheet →
  XLSX.ref sheet = Some ref → ref ≠ "" →
  (XLSX.r (XLSX.s (decode_range ref)) ≤ XLSX.r (XLSX.e (decode_range ref)))%nat →
  ∃ rows,
    readFirstSheet path rowsLimit = Ok rows ∧
    openedPages (Some ref) pages = Z.of_nat (length rows).
Proof.
  intros Hread Hname Hsheet Href Hne Hrange.
  unfold readFirstSheet, headerOffset.
  rewrite Hread. simpl. rewrite Hname. simpl. rewrite Hsheet.
  eexists. split; [reflexivity|].
  rewrite length_fmap, length_drop, (sheetToArray_ref _ _ Href Hne).
  rewrite length_fmap, length_seq.
  unfold openedPages. rewrite decide_False by done. lia.
Qed.

Lemma openedPages_counts_rows_witness :
  @XLSX_readFile Sample.env "data.xlsx" (5 + 1) = Ok (Sample.workbook 6) ∧
  XLSX.SheetNames (Sample.workbook 6) !! 0%nat = Some "Sheet1" ∧
  XLSX.Sheets (Sample.workbook 6) !! "Sheet1" = Some (Sample.sheet 6) ∧
  XLSX.ref (Sample.sheet 6) = Some "A1:B3" ∧
  "A1:B3" ≠ "" ∧
  (XLSX.r (XLSX.s (@decode_range Sample.env "A1:B3"))
   ≤ XLSX.r (XLSX.e (@decode_range Sample.env "A1:B3")))%nat ∧
  ∃ rows,
    @readFirstSheet Sample.env "data.xlsx" 5 = Ok rows ∧
    @openedPages Sample.env (Some "A1:B3") 1 = Z.of_nat (length rows).
Proof.
  assert (Hrange : (XLSX.r (XLSX.s (@decode_range Sample.env "A1:B3"))
                    ≤ XLSX.r (XLSX.e (@decode_range Sample.env "A1:B3")))%nat)
    by (vm_compute; lia).
  split_and!; [reflexivity|reflexivity|reflexivity|reflexivity|done|exact Hrange|].
  exact (@openedPages_counts_rows Sample.env "data.xlsx" 5 (Sample.workbook 6)
           "Sheet1" (Sample.sheet 6) "A1:B3" 1
           eq_refl eq_refl eq_refl eq_refl ltac:(done) Hrange).
Defined.

(** * The further properties at sample inputs *)

Lemma renderPage_embeds_once_witness :
  let run := @renderPage Sample.env Sample.bob Sample.page Sample.document ∅
               (Some Sample.mixed) (Some (num 300)) in
  let cv := match run with
            | Ok cv => cv
            | Throw _ => {| cv_page := Sample.page; cv_doc := Sample.document;
                            cv_fonts := ∅ |}
            end in
  doc_fonts Sample.document = [] ∧
  run = Ok cv ∧
  NoDup (font_name <$> doc_fonts (cv_doc cv)).
Proof.
  intros run cv.
  assert (Hnone : doc_fonts Sample.document = []) by reflexivity.
  assert (Hrun : run = Ok cv) by (vm_compute; reflexivity).
  split_and!; [exact Hnone|exact Hrun|].
  exact (@renderPage_embeds_once Sample.env Sample.bob Sample.page Sample.document ∅
           (Some Sample.mixed) (Some (num 300)) cv Hnone Hrun).
Defined.

Lemma renderPage_keeps_witness :
  let run := @renderPage Sample.env Sample.bob Sample.page Sample.document ∅
               (Some Sample.mixed) (Some (num 300)) in
  let cv := match run with
            | Ok cv => cv
            | Throw _ => {| cv_page := Sample.page; cv_doc := Sample.document;
                            cv_fonts := ∅ |}
            end in
  run = Ok cv ∧
  pg_width (cv_page cv) = pg_width Sample.page ∧
  pg_height (cv_page cv) = pg_height Sample.page ∧
  pg_values (cv_page cv) = pg_values Sample.page ∧
  pg_draws Sample.page `prefix_of` pg_draws (cv_page cv) ∧
  doc_id (cv_doc cv) = doc_id Sample.document ∧
  doc_pages (cv_doc cv) = doc_pages Sample.document ∧
  doc_form (cv_doc cv) = doc_form Sample.document ∧
  doc_fonts Sample.document `prefix_of` doc_fonts (cv_doc cv) ∧
  (∅ : gmap string PDFFont) ⊆ cv_fonts cv.
Proof.
  intros run cv.
  assert (Hrun : run = Ok cv) by (vm_compute; reflexivity).
  split; [exact Hrun|].
  exact (@renderPage_keeps Sample.env Sample.bob Sample.page Sample.document ∅
           (Some Sample.mixed) (Some (num 300)) cv Hrun).
Defined.



Lemma renderForm_skips_witness :
  Forall (skippedEntry Sample.alice Sample.form)
    [("Adult", (-1)%Z); ("Ghost", 0%Z); ("Name", 7%Z)] ∧
  @renderForm Sample.env Sample.alice
    (Some [("Adult", (-1)%Z); ("Ghost", 0%Z); ("Name", 7%Z)]) (Some Sample.form)
  = Ok (Some {| fields := Sample.form; calls := [] |}).
Proof.
  assert (Hskip : Forall (skippedEntry Sample.alice Sample.form)
                    [("Adult", (-1)%Z); ("Ghost", 0%Z); ("Name", 7%Z)]).
  { repeat apply Forall_cons_2; [| | |apply Forall_nil_2].
    - left. reflexivity.
    - right; right; right. reflexivity.
    - right; left. reflexivity. }
  split; [exact Hskip|].
  exact (@renderForm_skips Sample.env Sample.alice _ Sample.form Hskip).
Defined.



Lemma loadForm_reports_witness :
  @readFile Sample.env "template.pdf" = Ok Sample.template ∧
  ∃ infos w',
    @loadForm Sample.env "template.pdf" Sample.world = (Ok infos, w') ∧
    files w' = files Sample.world ∧
    NoDup infos.*1 ∧
    ∀ name tag,
      (name, tag) ∈ infos
      ↔ tag ≠ Unsupported ∧ getFieldType (bytes_form Sample.template !! name) = tag.
Proof.
  assert (Hread : @readFile Sample.env "template.pdf" = Ok Sample.template)
    by reflexivity.
  split; [exact Hread|].
  exact (@loadForm_reports Sample.env "template.pdf" Sample.template Sample.world
           Hread).
Defined.

Lemma renderForm_changes_reported_witness :
  let infos := match (@loadForm Sample.env "template.pdf" Sample.world).1 with
               | Ok infos => infos
               | Throw _ => []
               end in
  let w' := (@loadForm Sample.env "template.pdf" Sample.world).2 in
  let st := match @renderForm Sample.env Sample.bob (Some Sample.mapping)
                    (Some (bytes_form Sample.template)) with
            | Ok (Some st) => st
            | _ => {| fields := Sample.form; calls := [] |}
            end in
  @readFile Sample.env "template.pdf" = Ok Sample.template ∧
  @loadForm Sample.env "template.pdf" Sample.world = (Ok infos, w') ∧
  @renderForm Sample.env Sample.bob (Some Sample.mapping)
    (Some (bytes_form Sample.template)) = Ok (Some st) ∧
  fields st !! "Name" ≠ bytes_form Sample.template !! "Name" ∧
  "Name" ∈ infos.*1.
Proof.
  intros infos w' st.
  assert (Hread : @readFile Sample.env "template.pdf" = Ok Sample.template)
    by reflexivity.
  assert (Hload : @loadForm Sample.env "template.pdf" Sample.world = (Ok infos, w'))
    by (vm_compute; reflexivity).
  assert (Hrender : @renderForm Sample.env Sample.bob (Some Sample.mapping)
                      (Some (bytes_form Sample.template)) = Ok (Some st))
    by (vm_compute; reflexivity).
  assert (Hchanged : fields st !! "Name" ≠ bytes_form Sample.template !! "Name")
    by (vm_compute; discriminate).
  split_and!; [done..|].
  exact (@renderForm_changes_reported Sample.env "template.pdf" Sample.template
           Sample.bob Sample.mapping st infos Sample.world w' "Name"
           Hread Hload Hrender Hchanged).
Defined.

Lemma renderPdf_unreadable_witness :
  (@readFile Sample.env "missing.pdf" = Throw (IOError "missing.pdf") ∨
   (∃ pdfBuff, @readFile Sample.env "missing.pdf" = Ok pdfBuff) ∧
   @readFirstSheet Sample.env "data.xlsx" 5 = Throw (IOError "missing.pdf")) ∧
  ∃ w',
    @renderPdf Sample.env "out.pdf" "missing.pdf" 0 "data.xlsx" 5 true
      (Some Sample.overlay) (Some (num 300)) None Sample.world
    = (Throw (IOError "missing.pdf"), w') ∧
    files w' = files Sample.world.
Proof.
  assert (Hread : @readFile Sample.env "missing.pdf" = Throw (IOError "missing.pdf") ∨
                  (∃ pdfBuff, @readFile Sample.env "missing.pdf" = Ok pdfBuff) ∧
                  @readFirstSheet Sample.env "data.xlsx" 5
                  = Throw (IOError "missing.pdf"))
    by (left; reflexivity).
  split; [exact Hread|].
  exact (@renderPdf_unreadable Sample.env "out.pdf" "missing.pdf" 0 "data.xlsx" 5
           true (Some Sample.overlay) (Some (num 300)) None Sample.world
           (IOError "missing.pdf") Hread).
Defined.


Lemma renderPdf_no_rows_witness :
  @readFile Sample.env "template.pdf" = Ok Sample.template ∧
  @readFirstSheet Sample.env "data.xlsx" 0 = Ok [] ∧
  (true = true → @writable Sample.env "out.pdf" = true) ∧
  ∃ w',
    @renderPdf Sample.env "out.pdf" "template.pdf" 9 "data.xlsx" 0 true
      (Some Sample.overlay) (Some (num 300)) None Sample.world
    = (Ok 1%nat, w') ∧
    files w'
    = files Sample.world
      ++ [("out.pdf", {| bytes_pages := [@defaultPage Sample.env]; bytes_form := ∅ |})].
Proof.
  assert (Hpdf : @readFile Sample.env "template.pdf" = Ok Sample.template)
    by reflexivity.
  assert (Hrows : @readFirstSheet Sample.env "data.xlsx" 0 = Ok [])
    by (vm_compute; reflexivity).
  assert (Hwrite : true = true → @writable Sample.env "out.pdf" = true)
    by reflexivity.
  split_and!; [done..|].
  exact (@renderPdf_no_rows Sample.env "out.pdf" "template.pdf" 9 "data.xlsx" 0
           true (Some Sample.overlay) (Some (num 300)) None Sample.world
           Sample.template Hpdf Hrows Hwrite).
Defined.

Lemma iteration_fresh_document_witness :
  let run := @iteration Sample.env "out.pdf" Sample.template 0 false
               (Some Sample.overlay) (Some (num 300)) (Some Sample.mapping)
               0 Sample.bob Sample.start Sample.started in
  let st' := match run.1 with Ok st' => st' | Throw _ => Sample.start end in
  run = (Ok st', run.2) ∧
  ∃ id,
    ls_pdfDoc st' = parsed Sample.template id ∧
    (next_doc Sample.started ≤ id < next_doc run.2)%nat ∧
    next_doc run.2 = (next_doc Sample.started + 3)%nat.
Proof.
  intros run st'.
  assert (Hrun : run = (Ok st', run.2)) by (vm_compute; reflexivity).
  split; [exact Hrun|].
  exact (@iteration_fresh_document Sample.env "out.pdf" Sample.template 0 false
           (Some Sample.overlay) (Some (num 300)) (Some Sample.mapping)
           0 Sample.bob Sample.start Sample.started st' run.2 Hrun).
Defined.

Lemma renderPage_font_not_embeddable_witness :
  let canvas := {| objects := [Sample.qrcode; Sample.comic; Sample.label 1] |} in
  num 300 ≠ 0%Qc ∧
  objects canvas = [Sample.qrcode] ++ Sample.comic :: [Sample.label 1] ∧
  type Sample.comic = "text" ∧
  @isStandardFont Sample.env (fontKey Sample.comic) = false ∧
  inherited (fontKey Sample.comic) = false ∧
  (∀ o, o ∈ [Sample.qrcode] → type o ≠ "text") ∧
  (∀ cv, @renderPage Sample.env Sample.bob Sample.page Sample.document ∅
           (Some canvas) (Some (num 300)) ≠ Ok cv) ∧
  @renderPage Sample.env Sample.bob Sample.page Sample.document ∅ (Some canvas)
    (Some (num 300))
  = Throw (FontNotEmbeddable (fontKey Sample.comic)).
Proof.
  intros canvas.
  assert (Hw : num 300 ≠ 0%Qc) by (intros Heq; apply (f_equal this) in Heq;
                                    vm_compute in Heq; discriminate).
  assert (Hobjs : objects canvas
                  = [Sample.qrcode] ++ Sample.comic :: [Sample.label 1])
    by reflexivity.
  assert (Hstd : ∀ key, is_Some ((∅ : gmap string PDFFont) !! key) →
                        @isStandardFont Sample.env key = true).
  { intros key [f Hf]. by rewrite lookup_empty in Hf. }
  assert (Hpre : ∀ o, o ∈ [Sample.qrcode] → type o ≠ "text").
  { intros o Hin. apply list_elem_of_singleton in Hin as ->. done. }
  assert (Htext : type Sample.comic = "text") by reflexivity.
  assert (Hbad : @isStandardFont Sample.env (fontKey Sample.comic) = false)
    by reflexivity.
  assert (Hplain : inherited (fontKey Sample.comic) = false) by reflexivity.
  destruct (@renderPage_font_not_embeddable Sample.env Sample.bob Sample.page
              Sample.document ∅ canvas (num 300) [Sample.qrcode] Sample.comic
              [Sample.label 1] Hw Hobjs Hstd Htext Hbad Hplain) as [Hnever Hthrows].
  split_and!; [done..|exact Hnever|exact (Hthrows Hpre)].
Defined.
